(** * Webcam motion detector and face recognition demos: a shallow embedding

    The repository holds three React components.  Their algorithmic cores
    are embedded here as Rocq functions:

    - [TensorflowDemo]: src/backupFiles/face-recognition-tensorflow.tsx
      (colour heuristic, signature sampling, nearest-signature matcher);
    - [MotionDetector]: src/motion-detector.tsx (frame differencing);
    - [FaceApi]: the face-api.js variant of the face recognition component
      (enrolment, removal, JSON export and import of the list of saved
      faces).

    JavaScript Numbers are IEEE 754 binary64 values, so real-valued
    quantities are Rocq's primitive [float]s, whose operations round
    exactly as the JavaScript ones do.  Quantities the code keeps
    integral (bytes of a pixel buffer, array lengths, loop counters,
    results of [Math.floor] and the pixel index computed from them) are
    [Z]; they stay far below 2^53, the range in which binary64 arithmetic
    on integers is exact.  The loops whose counters are Numbers that need
    not be integers (the sampling loops of [detectFaces]) run on
    [float]s, with fuel. *)

From Stdlib Require Import String Ascii DecimalString DecimalZ DecimalPos.
From Stdlib Require Import ZArith List Bool Lia.
From Stdlib Require Import Floats.
From Stdlib Require Uint63.
Import ListNotations.

(* ================================================================== *)
(** * Part I: the model                                                *)
(* ================================================================== *)

(** ** JavaScript numbers *)

Module JS.

Open Scope float_scope.

(** Decimal literals of the sources that are not dyadic, as the binary64
    values a JavaScript engine reads them as. *)
Definition c0_3 : float := 0x1.3333333333333p-2.   (* 0.3 *)
Definition c0_6 : float := 0x1.3333333333333p-1.   (* 0.6 *)
Definition c0_1 : float := 0x1.999999999999ap-4.   (* 0.1 *)
Definition c0_01 : float := 0x1.47ae147ae147bp-7.  (* 0.01 *)

(** An integer as a Number (exact below 2^53). *)
Definition of_Z (z : Z) : float :=
  match z with
  | Z0 => 0
  | Zpos _ => of_uint63 (Uint63.of_Z z)
  | Zneg p => - of_uint63 (Uint63.of_Z (Zpos p))
  end.

(** [x >= 0] and [x > y] of JavaScript: false as soon as a NaN is involved. *)
Definition geb (x y : float) : bool := y <=? x.
Definition gtb (x y : float) : bool := y <? x.

(** The integer a Number denotes, when it denotes one: the property key
    under which [arr[x]] looks an element up. *)
Definition to_index (x : float) : option Z :=
  match Prim2SF x with
  | S754_zero _ => Some 0%Z
  | S754_finite s m e =>
      if (0 <=? e)%Z then Some (cond_Zopp s (Zpos m * 2 ^ e))
      else if (Zpos m mod 2 ^ (- e) =? 0)%Z
           then Some (cond_Zopp s (Zpos m / 2 ^ (- e)))
           else None
  | _ => None
  end.

(** [Math.floor], as an integer; [None] for NaN and the infinities, which
    [Math.floor] returns unchanged. *)
Definition floorZ (x : float) : option Z :=
  match Prim2SF x with
  | S754_zero _ => Some 0%Z
  | S754_finite s m e =>
      if (0 <=? e)%Z then Some (cond_Zopp s (Zpos m * 2 ^ e))
      else Some (cond_Zopp s (Zpos m) / 2 ^ (- e))%Z
  | _ => None
  end.

(** A binary64 value that is not below zero: NaN, a zero, or positive. *)
Definition notNegative (f : spec_float) : Prop :=
  match f with
  | S754_finite true _ _ | S754_infinity true => False
  | _ => True
  end.

(** [arr[i]] on a Uint8ClampedArray, read as a Number: the byte when [i]
    is an index of the array, and [undefined] otherwise, which arithmetic
    turns into NaN. *)
Definition byteAt (data : list Z) (i : Z) : float :=
  if (i <? 0)%Z then nan
  else match nth_error data (Z.to_nat i) with
       | Some b => of_Z b
       | None => nan
       end.

Definition typedGet (data : list Z) (i : float) : float :=
  match to_index i with
  | Some z => byteAt data z
  | None => nan
  end.

End JS.

(** ** Canvas pixel buffers *)

Module Canvas.

(** [ImageData]: RGBA bytes, row-major, four per pixel. *)
Record ImageData : Type := mkImageData {
  width : Z;
  height : Z;
  data : list Z
}.

Definition dataLength (img : ImageData) : Z := Z.of_nat (length (data img)).

(** What [getImageData] hands out: as many bytes as the dimensions ask
    for, each an 8-bit sample. *)
Definition wellFormed (img : ImageData) : Prop :=
  (0 <= width img)%Z /\ (0 <= height img)%Z /\
  dataLength img = (4 * width img * height img)%Z /\
  Forall (fun b => 0 <= b <= 255)%Z (data img).

(** Every pixel has its red, green and blue samples at [v]. *)
Definition uniformRGB (img : ImageData) (v : Z) : Prop :=
  forall p c, (0 <= p < width img * height img)%Z -> (0 <= c < 3)%Z ->
    nth_error (data img) (Z.to_nat (4 * p + c)) = Some v.

(** A frame of one colour. *)
Definition solidFrame (w h : Z) (r g b a : Z) : ImageData :=
  {| width := w; height := h;
     data := concat (repeat [r; g; b; a] (Z.to_nat (w * h))) |}.

End Canvas.

(** ** The colour-heuristic demo (face-recognition-tensorflow.tsx) *)

Module TensorflowDemo.

Import JS.
Open Scope float_scope.

(** An entry of [savedFaces].  [descriptor] is [None] for an entry that
    carries none (an imported object may lack the property). *)
Record FaceSignature : Type := mkFace {
  id : string;
  name : string;
  savedAt : string;
  descriptor : option (list float)
}.

Record FaceRect : Type := mkRect {
  x : float;
  y : float;
  width : float;
  height : float
}.

(** The centred square of [detectFaces] and [saveFace]: a third of the
    shorter side, around the floored centre. *)
Definition centeredRect (w h : Z) : FaceRect :=
  let centerX := of_Z (w / 2) in
  let centerY := of_Z (h / 2) in
  let rectSize := of_Z (Z.min w h) / 3 in
  {| x := centerX - rectSize / 2;
     y := centerY - rectSize / 2;
     width := rectSize;
     height := rectSize |}.

Record Totals : Type := mkTotals {
  rTotal : float;
  gTotal : float;
  bTotal : float;
  pixelCount : Z
}.

Definition noTotals : Totals :=
  {| rTotal := 0; gTotal := 0; bTotal := 0; pixelCount := 0 |}.

(** Body of the inner loop of [detectFaces]; [get] is the read [data[.]]
    and [len] is [data.length]. *)
Definition addPixel (get : float -> float) (len : float) (canvasWidth : Z)
    (yy xx : float) (t : Totals) : Totals :=
  let i := (yy * of_Z canvasWidth + xx) * 4 in
  if geb i 0 && (i <? len) then
    {| rTotal := rTotal t + get i;
       gTotal := gTotal t + get (i + 1);
       bTotal := bTotal t + get (i + 2);
       pixelCount := pixelCount t + 1 |}
  else t.

(** [for (let x = faceRect.x; x < faceRect.x + faceRect.width; x += 10)].
    The counters are Numbers, so the loops run on fuel: [None] when it
    runs out. *)
Fixpoint columns (fuel : nat) (get : float -> float) (len : float)
    (canvasWidth : Z) (r : FaceRect) (yy xx : float) (t : Totals)
    : option Totals :=
  match fuel with
  | O => None
  | S k =>
      if xx <? x r + width r
      then columns k get len canvasWidth r yy (xx + 10)
             (addPixel get len canvasWidth yy xx t)
      else Some t
  end.

(** [for (let y = faceRect.y; y < faceRect.y + faceRect.height; y += 10)]. *)
Fixpoint rows (fuel inner : nat) (get : float -> float) (len : float)
    (canvasWidth : Z) (r : FaceRect) (yy : float) (t : Totals)
    : option Totals :=
  match fuel with
  | O => None
  | S k =>
      if yy <? y r + height r
      then match columns inner get len canvasWidth r yy (x r) t with
           | Some t' => rows k inner get len canvasWidth r (yy + 10) t'
           | None => None
           end
      else Some t
  end.

(** One entry of the signature: the sample point of index [i], and the
    weighted colour found there. *)
Definition samplePoint (r : FaceRect) (i : Z) : option (Z * Z) :=
  let row := of_Z (i / 8) / 16 in
  let col := of_Z (i mod 8) / 8 in
  match floorZ (x r + width r * col), floorZ (y r + height r * row) with
  | Some px, Some py => Some (px, py)
  | _, _ => None
  end.

Definition weighted (r g b : float) : float :=
  (r * c0_3 + g * c0_6 + b * c0_1) / 255.

(** The Numbers a colour sample can be, and the check that every triple
    of them is weighted into the unit interval. *)
Definition byteNumbers : list float := map of_Z (map Z.of_nat (seq 0 256)).

Definition inUnit (c : float) : bool := (0 <=? c) && (c <=? 1).

Definition weightsInUnit (samples : list float) : bool :=
  forallb (fun r =>
    forallb (fun g =>
      forallb (fun b => inUnit (weighted r g b)) samples) samples) samples.

(** The body of the loop of [generateFaceSignature]; [get] is the read
    [data[.]], [imageWidth] is [imageData.width] and [len] is
    [data.length]. *)
Definition sampleEntry (get : Z -> float) (imageWidth len : Z) (r : FaceRect)
    (i : Z) : float :=
  match samplePoint r i with
  | Some (px, py) =>
      let pixelIndex := ((py * imageWidth + px) * 4)%Z in
      if (0 <=? pixelIndex)%Z && (pixelIndex <? len)%Z
      then weighted (get pixelIndex) (get (pixelIndex + 1)%Z)
                    (get (pixelIndex + 2)%Z)
      else 0
  | None => 0
  end.

Definition signatureEntry (img : Canvas.ImageData) (r : FaceRect) (i : Z)
    : float :=
  sampleEntry (byteAt (Canvas.data img)) (Canvas.width img)
    (Canvas.dataLength img) r i.

Definition generateFaceSignature (img : Canvas.ImageData) (r : FaceRect)
    : list float :=
  map (fun i => signatureEntry img r (Z.of_nat i)) (seq 0 128).

(** What one pass of [detectFaces] computes from the frame drawn on the
    canvas. *)
Record Detection : Type := mkDetection {
  isFaceDetected : bool;
  colorVariance : float;
  brightnessAvg : float;
  faceSignature : option (list float)
}.

Definition analyse (fuel : nat) (get : float -> float) (len : float)
    (w h : Z) : option (bool * float * float) :=
  let faceRect := centeredRect w h in
  match rows fuel fuel get len w faceRect (y faceRect) noTotals with
  | None => None
  | Some t =>
      let rAvg := rTotal t / of_Z (pixelCount t) in
      let gAvg := gTotal t / of_Z (pixelCount t) in
      let bAvg := bTotal t / of_Z (pixelCount t) in
      let colorVariance :=
        abs (rAvg - gAvg) + abs (rAvg - bAvg) + abs (gAvg - bAvg) in
      let brightnessAvg := (rAvg + gAvg + bAvg) / 3 in
      let isFaceDetected :=
        (colorVariance <? 80) && gtb brightnessAvg 80
        && (brightnessAvg <? 200) in
      Some (isFaceDetected, colorVariance, brightnessAvg)
  end.

Definition detectFaces (fuel : nat) (img : Canvas.ImageData)
    : option Detection :=
  match analyse fuel (typedGet (Canvas.data img))
          (of_Z (Canvas.dataLength img))
          (Canvas.width img) (Canvas.height img) with
  | None => None
  | Some (found, variance, brightness) =>
      Some {| isFaceDetected := found;
              colorVariance := variance;
              brightnessAvg := brightness;
              faceSignature :=
                if found
                then Some (generateFaceSignature img
                             (centeredRect (Canvas.width img)
                                           (Canvas.height img)))
                else None |}
  end.

(** [calculateSignatureDistance]: the loop over the indices of [sig1]. *)
Fixpoint sumSquares (n i : nat) (sig1 sig2 : list float) (sum : float)
    : float :=
  match n with
  | O => sum
  | S n' =>
      let diff := nth i sig1 nan - nth i sig2 nan in
      sumSquares n' (S i) sig1 sig2 (sum + diff * diff)
  end.

Definition calculateSignatureDistance (sig1 sig2 : option (list float))
    : float :=
  match sig1, sig2 with
  | Some a, Some b =>
      if negb (length a =? length b)%nat then 1
      else sqrt (sumSquares (length a) 0 a b 0)
  | _, _ => 1
  end.

(** [findFaceMatch]: one pass over [savedFaces], keeping the closest entry
    seen so far below the running bound, which starts at the threshold. *)
Definition matchThreshold : float := 0.5.

Definition closer (currentSignature : option (list float))
    (best : option FaceSignature * float) (face : FaceSignature)
    : option FaceSignature * float :=
  let distance :=
    calculateSignatureDistance currentSignature (descriptor face) in
  if distance <? snd best then (Some face, distance) else best.

Definition findFaceMatch (savedFaces : list FaceSignature)
    (currentSignature : option (list float)) : option FaceSignature :=
  if (length savedFaces =? 0)%nat then None
  else fst (fold_left (closer currentSignature) savedFaces
              (None, matchThreshold)).

(** What the pass knows after the entries [seen]: nothing seen is below the
    running bound, and the running bound is the distance of the entry
    kept, or still the threshold. *)
Definition passInvariant (currentSignature : option (list float))
    (seen : list FaceSignature) (best : option FaceSignature * float)
    : Prop :=
  (forall g, In g seen ->
     (calculateSignatureDistance currentSignature (descriptor g) <? snd best)
     = false) /\
  match fst best with
  | Some f =>
      In f seen /\
      calculateSignatureDistance currentSignature (descriptor f) = snd best /\
      (calculateSignatureDistance currentSignature (descriptor f) <? 0.5)
      = true
  | None => snd best = 0.5
  end.

(** The distance the specification names: the square root of the sum,
    in index order, of the squared component differences. *)
Definition euclideanDistance (a b : list float) : float :=
  sqrt (fold_left add
          (map (fun p => (fst p - snd p) * (fst p - snd p)) (combine a b))
          0).

End TensorflowDemo.

(** ** The motion detector (motion-detector.tsx) *)

Module MotionDetector.

Import JS.

(** The state one tick of [detectMotion] reads and writes:
    [previousFrameRef.current] and the [motionDetected] flag. *)
Record State : Type := mkState {
  previousFrame : option Canvas.ImageData;
  motionDetected : bool
}.

Definition initial : State :=
  {| previousFrame := None; motionDetected := false |}.

(** [data[i]] on the pixel buffers, as an integer; an index outside the
    buffer is not read by the loop below, [None] stands for it. *)
Definition sample (data : list Z) (i : Z) : option Z :=
  if (i <? 0)%Z then None else nth_error data (Z.to_nat i).

(** [Math.abs(currentData[i] - previousData[i])]; [None] is the NaN a
    read outside a buffer would give. *)
Definition channelDiff (currentData previousData : list Z) (i : Z)
    : option Z :=
  match sample currentData i, sample previousData i with
  | Some c, Some p => Some (Z.abs (c - p))
  | _, _ => None
  end.

(** [diff > sensitivity], false on NaN. *)
Definition exceeds (sensitivity : Z) (diff : option Z) : bool :=
  match diff with
  | Some d => (sensitivity <? d)%Z
  | None => false
  end.

(** The test of the loop body: some colour channel moved by more than
    [sensitivity]. *)
Definition pixelChanged (sensitivity : Z) (currentData previousData : list Z)
    (i : Z) : bool :=
  let rdiff := channelDiff currentData previousData i in
  let gdiff := channelDiff currentData previousData (i + 1) in
  let bdiff := channelDiff currentData previousData (i + 2) in
  exceeds sensitivity rdiff || exceeds sensitivity gdiff
  || exceeds sensitivity bdiff.

(** [for (let i = 0; i < dataLength - 3; i += 16)], counting in
    [motionPixels]; [None] when the fuel runs out. *)
Fixpoint compareLoop (fuel : nat) (sensitivity : Z)
    (currentData previousData : list Z) (dataLength i motionPixels : Z)
    : option Z :=
  match fuel with
  | O => None
  | S k =>
      if (i <? dataLength - 3)%Z
      then compareLoop k sensitivity currentData previousData dataLength
             (i + 16)
             (if pixelChanged sensitivity currentData previousData i
              then motionPixels + 1 else motionPixels)%Z
      else Some motionPixels
  end.

(** The offsets the loop visits. *)
Fixpoint sampledOffsets (fuel : nat) (dataLength i : Z) : list Z :=
  match fuel with
  | O => []
  | S k =>
      if (i <? dataLength - 3)%Z
      then i :: sampledOffsets k dataLength (i + 16)
      else []
  end.

(** Enough fuel for any buffer: the counter grows by 16 each round. *)
Definition fuelFor (dataLength : Z) : nat := S (Z.to_nat dataLength).

Definition countMotionPixels (sensitivity : Z)
    (currentData previousData : list Z) (dataLength : Z) : option Z :=
  compareLoop (fuelFor dataLength) sensitivity currentData previousData
    dataLength 0 0.

(** The verdict computed from the count. *)
Definition exceedsThreshold (motionPixels dataLength : Z) : bool :=
  let totalSampledPixels := (of_Z dataLength / 16)%float in
  let motionThreshold := (totalSampledPixels * c0_01)%float in
  gtb (of_Z motionPixels) motionThreshold.

(** The new value of the flag, when the tick sets it. *)
Definition verdict (sensitivity : Z) (currentFrame : Canvas.ImageData)
    (st : State) : option (option bool) :=
  match previousFrame st with
  | Some previous =>
      if ((Canvas.width previous =? Canvas.width currentFrame)
          && (Canvas.height previous =? Canvas.height currentFrame))%Z
      then
        let currentData := Canvas.data currentFrame in
        let previousData := Canvas.data previous in
        if (length currentData =? length previousData)%nat
        then
          let dataLength :=
            Z.min (Z.of_nat (length currentData))
                  (Z.of_nat (length previousData)) in
          match countMotionPixels sensitivity currentData previousData
                  dataLength with
          | Some motionPixels =>
              Some (Some (exceedsThreshold motionPixels dataLength))
          | None => None
          end
        else Some None
      else Some None
  | None => Some None
  end.

(** One tick of [detectMotion] on a frame read from the canvas: compare
    with the previous frame when there is one of the same size, then keep
    the current frame for the next tick.  [None] would be a tick that
    does not finish. *)
Definition detectMotion (sensitivity : Z) (currentFrame : Canvas.ImageData)
    (st : State) : option State :=
  match verdict sensitivity currentFrame st with
  | Some flag =>
      Some {| previousFrame := Some currentFrame;
              motionDetected :=
                match flag with
                | Some b => b
                | None => motionDetected st
                end |}
  | None => None
  end.

(** [stopWebcam] clears the flag and leaves the kept frame where it is. *)
Definition stopWebcam (st : State) : State :=
  {| previousFrame := previousFrame st; motionDetected := false |}.

(** The states the component can be in. *)
Inductive reachable : State -> Prop :=
| reach_initial : reachable initial
| reach_tick : forall sensitivity frame st st',
    reachable st ->
    detectMotion sensitivity frame st = Some st' ->
    reachable st'
| reach_stop : forall st, reachable st -> reachable (stopWebcam st).

(** A tick that cannot compare: no frame kept, or one of another size. *)
Definition noComparablePrevious (frame : Canvas.ImageData) (st : State)
    : Prop :=
  match previousFrame st with
  | None => True
  | Some previous =>
      Canvas.width previous <> Canvas.width frame \/
      Canvas.height previous <> Canvas.height frame
  end.

(** What the specification asks of the verdict: the changed samples
    outnumber one hundredth of the samples taken. *)
Definition changedCount (sensitivity : Z) (currentData previousData : list Z)
    (offsets : list Z) : Z :=
  Z.of_nat (length (filter (pixelChanged sensitivity currentData previousData)
                      offsets)).

Definition exceedsOnePercent (changed sampled : Z) : bool :=
  gtb (of_Z changed) (c0_01 * of_Z sampled)%float.

End MotionDetector.

(** ** The face-api.js component: the list of saved faces *)

Module FaceApi.

Import JS.

(** The JavaScript values that can sit in [savedFaces]: what the component
    builds itself and whatever [JSON.parse] returns.  Proofs about
    them recurse through the nested lists by hand. *)
#[local] Unset Elimination Schemes.
Inductive value : Type :=
| VNull
| VBool (b : bool)
| VNum (x : float)
| VStr (s : string)
| VArr (items : list value)
| VObj (fields : list (string * value)).
#[local] Set Elimination Schemes.

(** Property read [v.k] on an object; [None] is [undefined]. *)
Fixpoint lookup (k : string) (fields : list (string * value))
    : option value :=
  match fields with
  | [] => None
  | (k', v) :: rest => if String.eqb k k' then Some v else lookup k rest
  end.

Definition getProp (v : value) (k : string) : option value :=
  match v with
  | VObj fields => lookup k fields
  | _ => None
  end.

(** [face.id === id] against a string. *)
Definition hasId (id : string) (face : value) : bool :=
  match getProp face "id" with
  | Some (VStr s) => String.eqb s id
  | _ => false
  end.

(** The object literal of [saveFace]. *)
Definition newFace (id name savedAt : string) (descriptor : list float)
    : value :=
  VObj [("id"%string, VStr id);
        ("name"%string, VStr name);
        ("savedAt"%string, VStr savedAt);
        ("descriptor"%string, VArr (map VNum descriptor))].

(** [String.prototype.trim] on strings of code units below 256: the white
    space there is TAB, LF, VT, FF, CR, SPACE and NBSP. *)
Definition isWhiteSpace (c : ascii) : bool :=
  let n := nat_of_ascii c in
  ((9 <=? n) && (n <=? 13) || (n =? 32) || (n =? 160))%nat.

Fixpoint dropWhiteSpace (l : list ascii) : list ascii :=
  match l with
  | c :: rest => if isWhiteSpace c then dropWhiteSpace rest else l
  | [] => []
  end.

Definition trim (s : string) : string :=
  string_of_list_ascii
    (rev (dropWhiteSpace (rev (dropWhiteSpace (list_ascii_of_string s))))).

(** [Number.prototype.toString] on an integer, as [Date.now().toString()]
    uses it. *)
Definition toString (n : Z) : string :=
  NilZero.string_of_int (Z.to_int n).

(** A file handed to [importFaces], or produced by [exportFaces], stands
    for what [JSON.parse] makes of its text: a value, or a syntax error. *)
Inductive FileContent : Type :=
| NotJson
| Json (v : value).

Definition JSON_parse (f : FileContent) : option value :=
  match f with
  | NotJson => None
  | Json v => Some v
  end.

(** [JSON.stringify] writes NaN and the infinities as [null] and minus
    zero as [0]; every other Number is written so that it reads back as
    itself.  The text is represented by the value it parses to. *)
Definition numberToJson (x : float) : value :=
  if is_nan x || is_infinity x then VNull
  else if PrimFloat.Leibniz.eqb x neg_zero then VNum zero
  else VNum x.

Fixpoint toJson (v : value) : value :=
  match v with
  | VNum x => numberToJson x
  | VArr items => VArr (map toJson items)
  | VObj fields => VObj (map (fun kv => (fst kv, toJson (snd kv))) fields)
  | _ => v
  end.

Definition JSON_stringify (v : value) : FileContent := Json (toJson v).

(** The component state the registry operations touch. *)
Record State : Type := mkState {
  savedFaces : list value;
  faceName : string;
  faceDetected : bool;
  matchedFace : option value;
  error : option string
}.

Definition initial : State :=
  {| savedFaces := []; faceName := ""; faceDetected := false;
     matchedFace := None; error := None |}.

Definition setSavedFaces (l : list value) (st : State) : State :=
  {| savedFaces := l; faceName := faceName st;
     faceDetected := faceDetected st; matchedFace := matchedFace st;
     error := error st |}.

Definition setFaceName (n : string) (st : State) : State :=
  {| savedFaces := savedFaces st; faceName := n;
     faceDetected := faceDetected st; matchedFace := matchedFace st;
     error := error st |}.

Definition setMatchedFace (m : option value) (st : State) : State :=
  {| savedFaces := savedFaces st; faceName := faceName st;
     faceDetected := faceDetected st; matchedFace := m;
     error := error st |}.

Definition setError (e : string) (st : State) : State :=
  {| savedFaces := savedFaces st; faceName := faceName st;
     faceDetected := faceDetected st; matchedFace := matchedFace st;
     error := Some e |}.

(** What [saveFace] gets from its surroundings: whether the video element
    is mounted, what the detector answers at that moment (the descriptors
    of the faces found, or an exception), the clock and the locale
    rendering of the date. *)
Inductive DetectorAnswer : Type :=
| Faces (descriptors : list (list float))
| Throws.

Record Surroundings : Type := mkSurroundings {
  videoMounted : bool;
  detections : DetectorAnswer;
  now : Z;
  localeString : string
}.

Definition saveFace (env : Surroundings) (st : State) : State :=
  if negb (faceDetected st)
     || String.eqb (trim (faceName st)) ""
     || negb (videoMounted env)
  then st
  else
    match detections env with
    | Throws => setError "Failed to save face. Please try again." st
    | Faces [] =>
        setError "No face detected. Please position your face in the frame."
          st
    | Faces (faceDescriptor :: _) =>
        let face :=
          newFace (toString (now env)) (trim (faceName st))
            (localeString env) faceDescriptor in
        setFaceName "" (setSavedFaces (savedFaces st ++ [face]) st)
    end.

Definition removeFace (id : string) (st : State) : State :=
  let st' :=
    setSavedFaces (filter (fun face => negb (hasId id face)) (savedFaces st))
      st in
  match matchedFace st with
  | Some m => if hasId id m then setMatchedFace None st' else st'
  | None => st'
  end.

(** [exportFaces]: the content of the downloaded face-signatures.json,
    when a download happens. *)
Definition exportFaces (st : State) : option FileContent :=
  if (length (savedFaces st) =? 0)%nat then None
  else Some (JSON_stringify (VArr (savedFaces st))).

(** [importFaces] with the file chosen, once the reader has loaded it. *)
Definition importFaces (file : option FileContent) (st : State) : State :=
  match file with
  | None => st
  | Some content =>
      match JSON_parse content with
      | None => setError "Invalid face signatures file. Please try again." st
      | Some (VArr (first :: others)) =>
          setSavedFaces (savedFaces st ++ first :: others) st
      | Some _ => st
      end
  end.

(** The ids carried by the entries of a registry, in order. *)
Definition idsOf (faces : list value) : list value :=
  flat_map (fun face => match getProp face "id" with
                        | Some i => [i]
                        | None => []
                        end) faces.

Definition uniqueIds (faces : list value) : Prop := NoDup (idsOf faces).

(** The states the registry can reach. *)
Inductive reachable : State -> Prop :=
| reach_initial : reachable initial
| reach_detect : forall b st,
    reachable st ->
    reachable {| savedFaces := savedFaces st; faceName := faceName st;
                 faceDetected := b; matchedFace := matchedFace st;
                 error := error st |}
| reach_type : forall n st, reachable st -> reachable (setFaceName n st)
| reach_save : forall env st, reachable st -> reachable (saveFace env st)
| reach_remove : forall id st, reachable st -> reachable (removeFace id st)
| reach_import : forall file st,
    reachable st -> reachable (importFaces file st).

(** Numbers that [JSON.stringify] writes and [JSON.parse] reads back
    unchanged. *)
Definition exactNumber (x : float) : bool :=
  negb (is_nan x || is_infinity x) && negb (PrimFloat.Leibniz.eqb x neg_zero).

Fixpoint jsonExact (v : value) : bool :=
  match v with
  | VNum x => exactNumber x
  | VArr items => forallb jsonExact items
  | VObj fields => forallb (fun kv => jsonExact (snd kv)) fields
  | _ => true
  end.

(** Exporting a registry and importing the download into a fresh
    component; an empty registry yields no download, and nothing to
    import. *)
Definition roundTrip (faces : list value) : list value :=
  savedFaces (importFaces (exportFaces (setSavedFaces faces initial)) initial).

(** The entries the specification calls valid for an import (its section
    4.4): a name, a descriptor of non-zero length, and an id and a savedAt
    that are strings.  The component has no such test; the predicate serves
    to state what the specification expects. *)
Definition validEntry (face : value) : bool :=
  match getProp face "name", getProp face "descriptor",
        getProp face "id", getProp face "savedAt" with
  | Some (VStr _), Some (VArr (_ :: _)), Some (VStr _), Some (VStr _) => true
  | _, _, _, _ => false
  end.

End FaceApi.

(** ** Frames used in the scenarios below *)

Module Scenario.

(** A dark 133x3 frame, and the same with its first pixel lit red. *)
Definition darkFrame : Canvas.ImageData :=
  Canvas.solidFrame 133 3 0 0 0 255.

Definition flashFrame : Canvas.ImageData :=
  {| Canvas.width := 133; Canvas.height := 3;
     Canvas.data := [255; 0; 0; 255] ++ concat (repeat [0; 0; 0; 255] 398) |}%Z.

(** A black and a white 4x4 frame, and a black 2x2 one. *)
Definition blackFrame : Canvas.ImageData := Canvas.solidFrame 4 4 0 0 0 255.
Definition whiteFrame : Canvas.ImageData :=
  Canvas.solidFrame 4 4 255 255 255 255.
Definition smallFrame : Canvas.ImageData := Canvas.solidFrame 2 2 0 0 0 255.

(** A solid gray frame from a 16:10 camera. *)
Definition wideGray : Canvas.ImageData :=
  Canvas.solidFrame 640 400 128 128 128 255.

(** A visitor called Ann in front of the camera, and the answers the
    surroundings give when she saves her face. *)
Definition annReady : FaceApi.State :=
  {| FaceApi.savedFaces := []; FaceApi.faceName := " Ann ";
     FaceApi.faceDetected := true; FaceApi.matchedFace := None;
     FaceApi.error := None |}.

Definition blankName : FaceApi.State :=
  {| FaceApi.savedFaces := []; FaceApi.faceName := "  ";
     FaceApi.faceDetected := true; FaceApi.matchedFace := None;
     FaceApi.error := None |}.

Definition annSurroundings : FaceApi.Surroundings :=
  {| FaceApi.videoMounted := true;
     FaceApi.detections := FaceApi.Faces [[0.5; 0.25]%float];
     FaceApi.now := 1700000000000;
     FaceApi.localeString := "11/14/2023, 10:13:20 PM" |}.

Definition annFace : FaceApi.value :=
  FaceApi.newFace "1700000000000" "Ann" "11/14/2023, 10:13:20 PM"
    [0.5; 0.25]%float.

(** An entry whose descriptor holds an infinity, as a file containing the
    number 1e999 brings in. *)
Definition overflowFace : FaceApi.value :=
  FaceApi.newFace "1" "Bob" "today" [infinity].

End Scenario.

(** ** Shapes of binary64 values *)

Module NumberShape.

(** A zero or a finite number. *)
Definition finiteSF (f : spec_float) : Prop :=
  match f with
  | S754_zero _ | S754_finite _ _ _ => True
  | _ => False
  end.

(** Equal up to the sign. *)
Definition sameAbs (a b : spec_float) : Prop := SFabs a = SFabs b.

(** NaN, or a value whose sign bit is clear (so not minus zero). *)
Definition signPlus (f : spec_float) : Prop :=
  match f with
  | S754_nan => True
  | S754_zero s | S754_infinity s | S754_finite s _ _ => s = false
  end.

Definition isNaN (x : float) : Prop := Prim2SF x = S754_nan.

(** A descriptor without NaN and infinities. *)
Definition allFinite (d : list float) : bool := forallb is_finite d.

End NumberShape.

(** ** The registry of the colour-heuristic demo

    face-recognition-tensorflow.tsx keeps its saved faces as the face-api
    variant does ([removeFace], [exportFaces] and [importFaces] are the
    same text in both files); only [saveFace] differs: the descriptor is
    sampled from the canvas. *)

Module TensorflowRegistry.

Import FaceApi.

(** What [getImageData] answers when [saveFace] asks: the frame on the
    canvas, or an exception (a canvas without area). *)
Inductive CanvasAnswer : Type :=
| Frame (imageData : Canvas.ImageData)
| CanvasThrows.

Record Surroundings : Type := mkSurroundings {
  videoMounted : bool;
  canvasMounted : bool;
  videoWidth : Z;
  videoHeight : Z;
  canvasFrame : CanvasAnswer;
  now : Z;
  localeString : string
}.

Definition saveFace (env : Surroundings) (st : State) : State :=
  if negb (faceDetected st)
     || String.eqb (trim (faceName st)) ""
     || negb (videoMounted env)
     || negb (canvasMounted env)
  then st
  else
    match canvasFrame env with
    | CanvasThrows => setError "Failed to save face. Please try again." st
    | Frame imageData =>
        let faceRect :=
          TensorflowDemo.centeredRect (videoWidth env) (videoHeight env) in
        let faceSignature :=
          TensorflowDemo.generateFaceSignature imageData faceRect in
        let face :=
          newFace (toString (now env)) (trim (faceName st))
            (localeString env) faceSignature in
        setFaceName "" (setSavedFaces (savedFaces st ++ [face]) st)
    end.

(** The frames a canvas hands out are well formed. *)
Definition canvasSound (env : Surroundings) : Prop :=
  match canvasFrame env with
  | Frame imageData => Canvas.wellFormed imageData
  | CanvasThrows => True
  end.

(** The states reached without importing a file. *)
Inductive enrolledOnly : State -> Prop :=
| only_initial : enrolledOnly initial
| only_detect : forall b st,
    enrolledOnly st ->
    enrolledOnly {| savedFaces := savedFaces st; faceName := faceName st;
                    faceDetected := b; matchedFace := matchedFace st;
                    error := error st |}
| only_type : forall n st, enrolledOnly st -> enrolledOnly (setFaceName n st)
| only_save : forall env st,
    canvasSound env -> enrolledOnly st -> enrolledOnly (saveFace env st)
| only_remove : forall id st,
    enrolledOnly st -> enrolledOnly (removeFace id st).

End TensorflowRegistry.

(** ** Sequences of registry operations (face-api variant) *)

Module Runs.

Import FaceApi.

Inductive Op : Type :=
| OpDetect (b : bool)
| OpType (n : string)
| OpSave (env : Surroundings)
| OpRemove (id : string).

Definition step (st : State) (op : Op) : State :=
  match op with
  | OpDetect b =>
      {| savedFaces := savedFaces st; faceName := faceName st;
         faceDetected := b; matchedFace := matchedFace st;
         error := error st |}
  | OpType n => setFaceName n st
  | OpSave env => saveFace env st
  | OpRemove id => removeFace id st
  end.

Definition run (ops : list Op) (st : State) : State := fold_left step ops st.

(** Every enrolment of the run reads a clock later than [t] and than the
    enrolments before it. *)
Fixpoint clockAdvances (t : Z) (ops : list Op) : Prop :=
  match ops with
  | [] => True
  | OpSave env :: rest => (t < now env)%Z /\ clockAdvances (now env) rest
  | _ :: rest => clockAdvances t rest
  end.

(** All ids are clock readings up to [t], written in decimal. *)
Definition idsUpTo (t : Z) (faces : list value) : Prop :=
  forall i, In i (idsOf faces) ->
    exists u, (u <= t)%Z /\ i = VStr (toString u).

End Runs.

(** ** Which entry the matcher returns among equals *)

Module MatcherOrder.

Import TensorflowDemo.
Open Scope float_scope.

(** [f] sits in [faces] after entries that are all farther from the query
    and before entries none of which is closer. *)
Definition firstOfMinimum (query : option (list float))
    (faces : list FaceSignature) (f : FaceSignature) : Prop :=
  exists before after,
    faces = before ++ f :: after /\
    (forall g, In g before ->
       (calculateSignatureDistance query (descriptor g)
        <=? calculateSignatureDistance query (descriptor f)) = false) /\
    (forall g, In g after ->
       (calculateSignatureDistance query (descriptor g)
        <? calculateSignatureDistance query (descriptor f)) = false).

Definition orderedInvariant (query : option (list float))
    (seen : list FaceSignature) (best : option FaceSignature * float)
    : Prop :=
  match fst best with
  | None =>
      snd best = 0.5 /\
      forall g, In g seen ->
        (calculateSignatureDistance query (descriptor g) <? 0.5) = false
  | Some f =>
      calculateSignatureDistance query (descriptor f) = snd best /\
      firstOfMinimum query seen f
  end.

(** Two entries with the same descriptor, and a query equal to it. *)
Definition twinA : FaceSignature :=
  mkFace "1" "Ann" "monday" (Some [0.5; 0.25]).
Definition twinB : FaceSignature :=
  mkFace "2" "Bea" "tuesday" (Some [0.5; 0.25]).

End MatcherOrder.

(** ** What the motion detector looks at *)

Module MotionSamples.

Import MotionDetector.

Definition sameByte (a b : option Z) : bool :=
  match a, b with
  | Some x, Some y => (x =? y)%Z
  | None, None => true
  | _, _ => false
  end.

(** Two buffers hold the same red, green and blue bytes at every offset the
    comparing loop visits. *)
Definition sameSamples (data data' : list Z) (dataLength : Z) : bool :=
  forallb (fun i =>
             sameByte (sample data i) (sample data' i)
             && sameByte (sample data (i + 1)) (sample data' (i + 1))
             && sameByte (sample data (i + 2)) (sample data' (i + 2)))
          (sampledOffsets (fuelFor dataLength) dataLength 0).

(** The black 4x4 frame with another alpha on its first pixel and its
    second pixel lit. *)
Definition speckFrame : Canvas.ImageData :=
  {| Canvas.width := 4; Canvas.height := 4;
     Canvas.data := [0; 0; 0; 7; 255; 255; 255; 255]
                    ++ concat (repeat [0; 0; 0; 255] 14) |}%Z.

End MotionSamples.

(** ** A second visitor *)

Module Visitors.

Import FaceApi.

(** Bea types her name after Ann has saved her face, and saves hers a
    millisecond later. *)
Definition beaReady : State :=
  setFaceName "Bea" (saveFace Scenario.annSurroundings Scenario.annReady).

Definition beaSurroundings : Surroundings :=
  {| videoMounted := true;
     detections := Faces [[0.125; 0.75]%float];
     now := 1700000000001;
     localeString := "11/14/2023, 10:13:21 PM" |}.

Definition annAndBea : list Runs.Op :=
  [Runs.OpDetect true; Runs.OpType " Ann "; Runs.OpSave Scenario.annSurroundings;
   Runs.OpType "Bea"; Runs.OpSave beaSurroundings;
   Runs.OpRemove "1700000000000"].

(** White space at the start of a list of characters. *)
Definition clean (l : list ascii) : Prop :=
  match l with
  | [] => True
  | c :: _ => isWhiteSpace c = false
  end.

End Visitors.

(** ** Frames for the colour-heuristic demo *)

Module Studio.

Import JS TensorflowDemo.
Open Scope float_scope.

(** Ann in front of the colour-heuristic demo: a 2x2 canvas of one
    colour. *)
Definition annCanvas : TensorflowRegistry.Surroundings :=
  {| TensorflowRegistry.videoMounted := true;
     TensorflowRegistry.canvasMounted := true;
     TensorflowRegistry.videoWidth := 2;
     TensorflowRegistry.videoHeight := 2;
     TensorflowRegistry.canvasFrame :=
       TensorflowRegistry.Frame (Canvas.solidFrame 2 2 10 20 30 255);
     TensorflowRegistry.now := 1700000000000;
     TensorflowRegistry.localeString := "11/14/2023, 10:13:20 PM" |}.

(** The index of the first pixel the loops of [detectFaces] look at. *)
Definition firstIndex (img : Canvas.ImageData) : float :=
  let faceRect := centeredRect (Canvas.width img) (Canvas.height img) in
  (y faceRect * of_Z (Canvas.width img) + x faceRect) * 4.

(** The loops of [detectFaces] are entered, and their first index lies
    within the buffer without being an integer. *)
Definition startsOffGrid (img : Canvas.ImageData) : bool :=
  let faceRect := centeredRect (Canvas.width img) (Canvas.height img) in
  (y faceRect <? y faceRect + height faceRect)
  && (x faceRect <? x faceRect + width faceRect)
  && geb (firstIndex img) 0
  && (firstIndex img <? of_Z (Canvas.dataLength img))
  && match to_index (firstIndex img) with
     | None => true
     | Some _ => false
     end.

(** A 10x10 frame of the middle gray. *)
Definition grayTen : Canvas.ImageData := Canvas.solidFrame 10 10 128 128 128 255.

End Studio.

(** ** The simulated face recognition of motion-detector.tsx

    The second component of the file draws its detections and its
    descriptors from [Math.random]; the draws are handed to the
    functions, in the order of the calls. *)

Module Simulated.

Import JS.
Import FaceApi (value, newFace, hasId, trim, toString).

Definition c0_7 : float := 0x1.6666666666666p-1.   (* 0.7 *)

Record State : Type := mkState {
  isActive : bool;
  faceDetected : bool;
  savedFaces : list value;
  faceName : string;
  faceDescriptors : list (list float);
  matchedFace : option value
}.

Definition initial : State :=
  {| isActive := false; faceDetected := false; savedFaces := [];
     faceName := ""; faceDescriptors := []; matchedFace := None |}.

(** [startWebcam], once the permission has been granted or refused. *)
Definition startWebcam (granted videoMounted : bool) (st : State) : State :=
  if granted
  then if videoMounted
       then {| isActive := true; faceDetected := faceDetected st;
               savedFaces := savedFaces st; faceName := faceName st;
               faceDescriptors := faceDescriptors st;
               matchedFace := matchedFace st |}
       else st
  else {| isActive := false; faceDetected := faceDetected st;
          savedFaces := savedFaces st; faceName := faceName st;
          faceDescriptors := faceDescriptors st;
          matchedFace := matchedFace st |}.

Definition stopWebcam (st : State) : State :=
  {| isActive := false; faceDetected := false;
     savedFaces := savedFaces st; faceName := faceName st;
     faceDescriptors := faceDescriptors st; matchedFace := None |}.

(** [arr[i]] on an array, for the Number [Math.floor] returned: the
    element, or [undefined] (no face). *)
Definition element (faces : list value) (i : option Z) : option value :=
  match i with
  | Some z => if (z <? 0)%Z then None else nth_error faces (Z.to_nat z)
  | None => None
  end.

(** What a pass of [detectFaces] gets from outside: whether the video and
    the canvas are mounted, and the values of its calls of [Math.random],
    in order. *)
Record Pass : Type := mkPass {
  mounted : bool;
  firstDraw : float;
  secondDraw : float;
  thirdDraw : float
}.

Definition detectFaces (env : Pass) (st : State) : State :=
  if negb (mounted env) || negb (isActive st) then st
  else
    let isFaceDetected := gtb (firstDraw env) c0_3 in
    let matched :=
      if isFaceDetected && (0 <? length (savedFaces st))%nat
      then if gtb (secondDraw env) c0_7
           then
             let randomIndex :=
               floorZ (thirdDraw env
                       * of_Z (Z.of_nat (length (savedFaces st)))) in
             element (savedFaces st) randomIndex
           else None
      else None in
    {| isActive := isActive st; faceDetected := isFaceDetected;
       savedFaces := savedFaces st; faceName := faceName st;
       faceDescriptors := faceDescriptors st; matchedFace := matched |}.

(** What [saveFace] gets from outside: the 128 values of [Math.random],
    the clock and the locale rendering of the date. *)
Record Enrolment : Type := mkEnrolment {
  draw : nat -> float;
  now : Z;
  localeString : string
}.

(** [Array.from({ length: 128 }, () => Math.random() * 2 - 1)]. *)
Definition randomDescriptor (env : Enrolment) : list float :=
  map (fun k => draw env k * 2 - 1) (seq 0 128).

Definition saveFace (env : Enrolment) (st : State) : State :=
  if negb (faceDetected st) || String.eqb (trim (faceName st)) ""
  then st
  else
    let newFaceDescriptor := randomDescriptor env in
    let face :=
      newFace (toString (now env)) (trim (faceName st)) (localeString env)
        newFaceDescriptor in
    {| isActive := isActive st; faceDetected := faceDetected st;
       savedFaces := savedFaces st ++ [face]; faceName := "";
       faceDescriptors := faceDescriptors st ++ [newFaceDescriptor];
       matchedFace := matchedFace st |}.

Definition removeFace (id : string) (st : State) : State :=
  {| isActive := isActive st; faceDetected := faceDetected st;
     savedFaces := filter (fun face => negb (hasId id face)) (savedFaces st);
     faceName := faceName st; faceDescriptors := faceDescriptors st;
     matchedFace := matchedFace st |}.

(** What can happen to the component, one event after the other. *)
Inductive Op : Type :=
| OpStart (granted videoMounted : bool)
| OpStop
| OpDetect (env : Pass)
| OpType (name : string)
| OpSave (env : Enrolment)
| OpRemove (id : string).

Definition step (st : State) (op : Op) : State :=
  match op with
  | OpStart granted videoMounted => startWebcam granted videoMounted st
  | OpStop => stopWebcam st
  | OpDetect env => detectFaces env st
  | OpType name =>
      {| isActive := isActive st; faceDetected := faceDetected st;
         savedFaces := savedFaces st; faceName := name;
         faceDescriptors := faceDescriptors st;
         matchedFace := matchedFace st |}
  | OpSave env => saveFace env st
  | OpRemove id => removeFace id st
  end.

Definition run (ops : list Op) (st : State) : State := fold_left step ops st.

(** Carl has been detected and has typed his name. *)
Definition carlReady : State :=
  {| isActive := true; faceDetected := true; savedFaces := [];
     faceName := "Carl"; faceDescriptors := []; matchedFace := None |}.

Definition carlEnrolment : Enrolment :=
  {| draw := fun k => if Nat.even k then 0.25%float else 0.75%float;
     now := 1700000000002;
     localeString := "11/14/2023, 10:13:22 PM" |}.

(** A pass whose draws report a face, a match, and the first entry. *)
Definition luckyPass : Pass :=
  {| mounted := true; firstDraw := 0.5; secondDraw := 0.75;
     thirdDraw := 0.25 |}.

End Simulated.

(** ** The heuristic rule, as the specification words it

    The specification describes the heuristic detector by the pixels it
    averages: the centred square whose side is a third of the shorter
    side of the frame, every tenth pixel in each axis, row after row.
    This second definition, on integer pixel coordinates, is what
    [detectFaces] is compared with. *)

Module HeuristicRule.

Import JS.
Open Scope float_scope.

(** The pixels averaged, as (column, row), in the order of the rows. *)
Definition sampledPixels (w h : Z) : list (Z * Z) :=
  let side := (Z.min w h / 3)%Z in
  let left := (w / 2 - side / 2)%Z in
  let top := (h / 2 - side / 2)%Z in
  let steps := Z.to_nat ((side + 9) / 10) in
  flat_map (fun k =>
              map (fun j => ((left + 10 * Z.of_nat j)%Z,
                             (top + 10 * Z.of_nat k)%Z))
                (seq 0 steps))
    (seq 0 steps).

(** Where the samples of a pixel start in the RGBA buffer. *)
Definition offsetOf (w : Z) (p : Z * Z) : Z := (4 * (snd p * w + fst p))%Z.

(** The mean of channel [c] (0 red, 1 green, 2 blue) over the sampled
    pixels; [get] reads the buffer. *)
Definition channelMean (get : Z -> float) (w h c : Z) : float :=
  fold_left (fun total p => total + get (offsetOf w p + c)%Z)
    (sampledPixels w h) 0
  / of_Z (Z.of_nat (length (sampledPixels w h))).

Definition colorVariance (get : Z -> float) (w h : Z) : float :=
  let rMean := channelMean get w h 0 in
  let gMean := channelMean get w h 1 in
  let bMean := channelMean get w h 2 in
  abs (rMean - gMean) + abs (rMean - bMean) + abs (gMean - bMean).

Definition brightness (get : Z -> float) (w h : Z) : float :=
  let rMean := channelMean get w h 0 in
  let gMean := channelMean get w h 1 in
  let bMean := channelMean get w h 2 in
  (rMean + gMean + bMean) / 3.

Definition present (get : Z -> float) (w h : Z) : bool :=
  (colorVariance get w h <? 80) && (80 <? brightness get w h)
  && (brightness get w h <? 200).

(** The sampled pixels lie in a buffer of [w] times [h] pixels. *)
Definition inFrame (w h : Z) (p : Z * Z) : bool :=
  ((0 <=? fst p) && (fst p <? w) && (0 <=? snd p) && (snd p <? h))%Z.

End HeuristicRule.

(* ================================================================== *)
(** * Part II: properties                                              *)
(* ================================================================== *)

(** ** The order on Numbers *)

Section NumberOrder.

Open Scope float_scope.

Lemma SFltb_trans (a b c : spec_float) :
  SFltb a b = true -> SFltb b c = true -> SFltb a c = true.
Proof.
  unfold SFltb, SFcompare.
  destruct a as [sa|sa| |sa ma ea], b as [sb|sb| |sb mb eb],
           c as [sc|sc| |sc mc ec];
    try discriminate;
    repeat match goal with s : bool |- _ => destruct s end;
    try discriminate; try reflexivity;
    change (Pos.compare_cont Eq) with Pos.compare;
    destruct (Z.compare_spec ea eb), (Z.compare_spec eb ec),
             (Z.compare_spec ea ec);
    try discriminate; try reflexivity; try lia; subst;
    destruct (Pos.compare_spec ma mb), (Pos.compare_spec mb mc),
             (Pos.compare_spec ma mc);
    simpl; try discriminate; try reflexivity; try lia.
Qed.

Lemma SFltb_irrefl (a : spec_float) : SFltb a a = false.
Proof.
  unfold SFltb, SFcompare.
  destruct a as [s|s| |s m e]; try destruct s; try reflexivity;
    rewrite Z.compare_refl; change (Pos.compare_cont Eq) with Pos.compare;
    rewrite Pos.compare_refl; reflexivity.
Qed.

Lemma ltb_trans (a b c : float) :
  (a <? b) = true -> (b <? c) = true -> (a <? c) = true.
Proof. rewrite !ltb_spec. apply SFltb_trans. Qed.

Lemma ltb_irrefl (a : float) : (a <? a) = false.
Proof. rewrite ltb_spec. apply SFltb_irrefl. Qed.

(** Nothing is below a bound that something smaller is not below. *)
Lemma not_below_smaller (a b c : float) :
  (a <? c) = false -> (b <? c) = true -> (a <? b) = false.
Proof.
  intros Hac Hbc. destruct (a <? b) eqn:Hab; [|reflexivity].
  rewrite (ltb_trans _ _ _ Hab Hbc) in Hac. discriminate.
Qed.

End NumberOrder.

(** ** The matcher *)

Section Matcher.

Import TensorflowDemo.
Open Scope float_scope.

Variable currentSignature : option (list float).

Let dist (f : FaceSignature) : float :=
  calculateSignatureDistance currentSignature (descriptor f).

Lemma closer_keeps_invariant seen best face :
  passInvariant currentSignature seen best ->
  passInvariant currentSignature (seen ++ [face])
    (closer currentSignature best face).
Proof.
  unfold passInvariant, closer. intros [Hlow Hbest].
  destruct (calculateSignatureDistance currentSignature (descriptor face)
            <? snd best) eqn:Hlt; split; simpl.
  - intros g Hg. apply in_app_or in Hg. destruct Hg as [Hg | [<- | []]].
    + eapply not_below_smaller; eauto.
    + apply ltb_irrefl.
  - split; [apply in_or_app; right; left; reflexivity|].
    split; [reflexivity|].
    destruct (fst best) as [f|].
    + destruct Hbest as (_ & Hd & Hf). rewrite Hd in Hf.
      eapply ltb_trans; eauto.
    + rewrite Hbest in Hlt. exact Hlt.
  - intros g Hg. apply in_app_or in Hg. destruct Hg as [Hg | [<- | []]]; auto.
  - destruct (fst best) as [f|]; [|exact Hbest].
    destruct Hbest as (Hin & Hd & Hf). repeat split; auto.
    apply in_or_app; left; exact Hin.
Qed.

Lemma pass_keeps_invariant faces : forall seen best,
  passInvariant currentSignature seen best ->
  passInvariant currentSignature (seen ++ faces)
    (fold_left (closer currentSignature) faces best).
Proof.
  induction faces as [|face faces IH]; intros seen best Hinv; simpl.
  - rewrite app_nil_r. exact Hinv.
  - replace (seen ++ face :: faces) with ((seen ++ [face]) ++ faces)
      by (rewrite <- app_assoc; reflexivity).
    apply IH, closer_keeps_invariant, Hinv.
Qed.

Lemma pass_invariant_start :
  passInvariant currentSignature [] (None, matchThreshold).
Proof. split; [intros g []|reflexivity]. Qed.

Lemma findFaceMatch_some faces f :
  findFaceMatch faces currentSignature = Some f ->
  In f faces /\ (dist f <? 0.5) = true /\
  forall g, In g faces -> (dist g <? dist f) = false.
Proof.
  unfold findFaceMatch, dist.
  destruct (length faces =? 0)%nat; [discriminate|].
  pose proof (pass_keeps_invariant faces _ _ pass_invariant_start)
    as [Hlow Hbest].
  simpl app in *. intros Hres. rewrite Hres in Hbest.
  destruct Hbest as (Hin & Hd & Hf). repeat split; auto.
  intros g Hg. rewrite Hd. auto.
Qed.

Lemma findFaceMatch_none faces :
  findFaceMatch faces currentSignature = None <->
  forall g, In g faces -> (dist g <? 0.5) = false.
Proof.
  unfold findFaceMatch, dist. destruct faces as [|face faces].
  - simpl. split; [intros _ g []|reflexivity].
  - change (length (face :: faces) =? 0)%nat with false. cbv iota.
    pose proof (pass_keeps_invariant (face :: faces) _ _ pass_invariant_start)
      as [Hlow Hbest].
    simpl app in *.
    destruct (fst (fold_left (closer currentSignature) (face :: faces)
                     (None, matchThreshold))) as [f|] eqn:Hres.
    + destruct Hbest as (Hin & Hd & Hf). split; [discriminate|].
      intros Hall. rewrite (Hall f Hin) in Hf. discriminate.
    + split; [|reflexivity]. intros _ g Hg. rewrite <- Hbest. auto.
Qed.

End Matcher.

Section MatcherClaims.

Import TensorflowDemo.
Open Scope float_scope.

(** The loop of [calculateSignatureDistance] adds the squared differences
    in index order. *)
Lemma sumSquares_fold (a : list float) : forall b pa pb sum,
  length pa = length pb -> length a = length b ->
  sumSquares (length a) (length pa) (pa ++ a) (pb ++ b) sum =
  fold_left add (map (fun p => (fst p - snd p) * (fst p - snd p))
                     (combine a b)) sum.
Proof.
  induction a as [|u a IH]; intros [|v b] pa pb sum Hp Hab;
    try discriminate; [reflexivity|].
  simpl length. simpl sumSquares. simpl combine. simpl map. simpl fold_left.
  rewrite nth_middle.
  replace (nth (length pa) (pb ++ v :: b) nan) with v
    by (rewrite Hp; symmetry; apply nth_middle).
  replace (pa ++ u :: a) with ((pa ++ [u]) ++ a)
    by (rewrite <- app_assoc; reflexivity).
  replace (pb ++ v :: b) with ((pb ++ [v]) ++ b)
    by (rewrite <- app_assoc; reflexivity).
  replace (S (length pa)) with (length (pa ++ [u]))
    by (rewrite length_app; simpl; lia).
  apply IH.
  - rewrite !length_app. simpl. lia.
  - simpl in Hab. lia.
Qed.

Lemma distance_of_equal_lengths (a b : list float) :
  length a = length b ->
  calculateSignatureDistance (Some a) (Some b) = euclideanDistance a b.
Proof.
  intros Hab. unfold calculateSignatureDistance, euclideanDistance.
  rewrite Hab, Nat.eqb_refl. simpl negb. cbv iota. rewrite <- Hab.
  f_equal. apply (sumSquares_fold a b [] [] 0); auto.
Qed.

Lemma distance_of_mismatch (a b : list float) :
  length a <> length b ->
  calculateSignatureDistance (Some a) (Some b) = 1.
Proof.
  intros Hab. unfold calculateSignatureDistance.
  apply Nat.eqb_neq in Hab. rewrite Hab. reflexivity.
Qed.

(** An entry that is returned has a descriptor as long as the query. *)
Lemma findFaceMatch_same_length savedFaces query f :
  findFaceMatch savedFaces query = Some f ->
  exists a b, query = Some a /\ descriptor f = Some b /\ length a = length b.
Proof.
  intros Hf. destruct (findFaceMatch_some _ _ _ Hf) as (_ & Hlt & _).
  destruct query as [a|], (descriptor f) as [b|];
    try (vm_compute in Hlt; discriminate).
  exists a, b. repeat split.
  destruct (Nat.eq_dec (length a) (length b)) as [Heq|Hneq]; [exact Heq|].
  rewrite (distance_of_mismatch a b Hneq) in Hlt. vm_compute in Hlt.
  discriminate.
Qed.

(** C1: under the simple-nearest policy, [findFaceMatch] returns an entry
    exactly when some entry lies strictly below 0.5 from the query, and the
    entry returned is then one of minimum distance (no entry is strictly
    closer), that distance being the Euclidean one; it returns nothing when
    the registry is empty or no distance is below the threshold.  With the
    single entry "Alice" whose descriptor is all zeros and an all-zeros
    query, the match is "Alice" at distance 0. *)
Theorem findFaceMatch_nearest_below_threshold :
  forall (savedFaces : list FaceSignature) (query : option (list float)),
    let dist f := calculateSignatureDistance query (descriptor f) in
    (forall f, findFaceMatch savedFaces query = Some f ->
       In f savedFaces /\ (dist f <? 0.5) = true /\
       (forall g, In g savedFaces -> (dist g <? dist f) = false) /\
       exists a b, query = Some a /\ descriptor f = Some b /\
                   dist f = euclideanDistance a b)
    /\ ((exists g, In g savedFaces /\ (dist g <? 0.5) = true) <->
        exists f, findFaceMatch savedFaces query = Some f)
    /\ (findFaceMatch savedFaces query = None <->
        forall g, In g savedFaces -> (dist g <? 0.5) = false)
    /\ findFaceMatch [] query = None
    /\ forall id savedAt,
         let alice := mkFace id "Alice" savedAt (Some (repeat 0 128)) in
         findFaceMatch [alice] (Some (repeat 0 128)) = Some alice /\
         calculateSignatureDistance (Some (repeat 0 128)) (descriptor alice)
         = 0.
Proof.
  intros savedFaces query dist.
  assert (Hnone := findFaceMatch_none query savedFaces).
  split; [|split; [|split; [|split]]].
  - intros f Hf.
    destruct (findFaceMatch_some _ _ _ Hf) as (Hin & Hlt & Hmin).
    repeat split; auto.
    destruct (findFaceMatch_same_length _ _ _ Hf) as (a & b & -> & Hb & Hab).
    exists a, b. repeat split; auto.
    unfold dist. rewrite Hb. apply distance_of_equal_lengths, Hab.
  - split.
    + intros (g & Hin & Hlt).
      destruct (findFaceMatch savedFaces query) as [f|] eqn:Hres;
        [exists f; reflexivity|].
      destruct Hnone as [Hall _]. specialize (Hall eq_refl g Hin).
      unfold dist in Hlt. rewrite Hall in Hlt. discriminate.
    + intros (f & Hf). exists f.
      destruct (findFaceMatch_some _ _ _ Hf) as (Hin & Hlt & _). auto.
  - exact Hnone.
  - reflexivity.
  - intros id savedAt alice. split; vm_compute; reflexivity.
Qed.

(** C2: on descriptors of equal length the distance of the matcher is the
    Euclidean distance, the square root of the sum of the squared
    differences, neither normalised nor clipped (the distance of (3,4) from
    the origin is 5); on descriptors of different lengths, or when one is
    absent, it raises nothing and answers 1, which is not below the
    threshold, so that [findFaceMatch] never returns an entry whose
    descriptor is absent or of another length than the query. *)
Theorem calculateSignatureDistance_euclidean_or_disqualifying :
  (forall a b, length a = length b ->
     calculateSignatureDistance (Some a) (Some b) = euclideanDistance a b)
  /\ calculateSignatureDistance (Some [3; 4]) (Some [0; 0]) = 5
  /\ (forall a b, length a <> length b ->
        calculateSignatureDistance (Some a) (Some b) = 1)
  /\ (forall s, calculateSignatureDistance None s = 1)
  /\ (forall s, calculateSignatureDistance s None = 1)
  /\ (1 <? matchThreshold) = false
  /\ (forall savedFaces query f,
        findFaceMatch savedFaces query = Some f ->
        exists a b, query = Some a /\ descriptor f = Some b /\
                    length a = length b).
Proof.
  split; [exact distance_of_equal_lengths|].
  split; [vm_compute; reflexivity|].
  split; [exact distance_of_mismatch|].
  split; [reflexivity|].
  split; [intros [s|]; reflexivity|].
  split; [reflexivity|].
  exact findFaceMatch_same_length.
Qed.

End MatcherClaims.

(** ** The colour heuristic *)

Section HeuristicLoops.

Import JS TensorflowDemo.
Open Scope float_scope.

(** The loops read the buffer only through [get]. *)
Lemma columns_ext (get1 get2 : float -> float) len cw r yy :
  (forall i, get1 i = get2 i) ->
  forall fuel xx t,
    columns fuel get1 len cw r yy xx t = columns fuel get2 len cw r yy xx t.
Proof.
  intros Hget. induction fuel as [|k IH]; intros xx t; simpl; [reflexivity|].
  destruct (xx <? x r + width r); [|reflexivity].
  unfold addPixel. rewrite !Hget. apply IH.
Qed.

Lemma rows_ext (get1 get2 : float -> float) len cw r inner :
  (forall i, get1 i = get2 i) ->
  forall fuel yy t,
    rows fuel inner get1 len cw r yy t = rows fuel inner get2 len cw r yy t.
Proof.
  intros Hget. induction fuel as [|k IH]; intros yy t; simpl; [reflexivity|].
  destruct (yy <? y r + height r); [|reflexivity].
  rewrite (columns_ext get1 get2 len cw r yy Hget).
  destruct (columns inner get2 len cw r yy (x r) t); [apply IH|reflexivity].
Qed.

Lemma analyse_ext (get1 get2 : float -> float) fuel len w h :
  (forall i, get1 i = get2 i) ->
  analyse fuel get1 len w h = analyse fuel get2 len w h.
Proof.
  intros Hget. unfold analyse.
  rewrite (rows_ext get1 get2 len w (centeredRect w h) fuel Hget).
  reflexivity.
Qed.

(** A loop that finished keeps its result when given more fuel. *)
Lemma columns_more_fuel get len cw r yy : forall k xx t t',
  columns k get len cw r yy xx t = Some t' ->
  forall n, (k <= n)%nat -> columns n get len cw r yy xx t = Some t'.
Proof.
  induction k as [|k IH]; intros xx t t' Hk n Hn; [discriminate|].
  destruct n as [|n]; [lia|]. simpl in *.
  destruct (xx <? x r + width r); [|exact Hk].
  apply IH; [exact Hk|lia].
Qed.

Lemma rows_more_fuel get len cw r : forall k inner yy t t',
  rows k inner get len cw r yy t = Some t' ->
  forall n m, (k <= n)%nat -> (inner <= m)%nat ->
    rows n m get len cw r yy t = Some t'.
Proof.
  induction k as [|k IH]; intros inner yy t t' Hk n m Hn Hm; [discriminate|].
  destruct n as [|n]; [lia|]. simpl in *.
  destruct (yy <? y r + height r); [|exact Hk].
  destruct (columns inner get len cw r yy (x r) t) as [t1|] eqn:Hc;
    [|discriminate].
  rewrite (columns_more_fuel get len cw r yy inner _ _ _ Hc m Hm).
  apply (IH inner); [exact Hk|lia|exact Hm].
Qed.

Lemma analyse_more_fuel get len w h k res :
  analyse k get len w h = Some res ->
  forall n, (k <= n)%nat -> analyse n get len w h = Some res.
Proof.
  unfold analyse. intros Hk n Hn.
  destruct (rows k k get len w (centeredRect w h) (y (centeredRect w h))
              noTotals) as [t|] eqn:Hr; [|discriminate].
  rewrite (rows_more_fuel get len w _ k k _ _ _ Hr n n Hn Hn). exact Hk.
Qed.

Lemma sampleEntry_ext (get1 get2 : Z -> float) w len r i :
  (forall z, get1 z = get2 z) ->
  sampleEntry get1 w len r i = sampleEntry get2 w len r i.
Proof.
  intros Hget. unfold sampleEntry.
  destruct (samplePoint r i) as [[px py]|]; [|reflexivity].
  rewrite !Hget. reflexivity.
Qed.

End HeuristicLoops.

(** ** Frames of one colour *)

Section SolidFrames.

Lemma length_concat_repeat {A : Type} (l : list A) (n : nat) :
  length (concat (repeat l n)) = (n * length l)%nat.
Proof.
  induction n as [|n IH]; simpl; [reflexivity|].
  rewrite length_app, IH. reflexivity.
Qed.

Lemma nth_error_concat_repeat {A : Type} (l : list A) (n : nat) :
  forall p c, (p < n)%nat -> (c < length l)%nat ->
    nth_error (concat (repeat l n)) (p * length l + c) = nth_error l c.
Proof.
  induction n as [|n IH]; intros p c Hp Hc; [lia|].
  simpl. destruct p as [|p].
  - simpl. apply nth_error_app1. exact Hc.
  - rewrite nth_error_app2 by (simpl; lia).
    replace (S p * length l + c - length l)%nat
      with (p * length l + c)%nat by (simpl; lia).
    apply IH; [lia|exact Hc].
Qed.

End SolidFrames.

Section GrayFrame.

Import JS TensorflowDemo.
Open Scope float_scope.

Variable img : Canvas.ImageData.
Hypothesis Hwidth : Canvas.width img = 640%Z.
Hypothesis Hheight : Canvas.height img = 480%Z.
Hypothesis Hlength : Canvas.dataLength img = 1228800%Z.
Hypothesis Hgray : Canvas.uniformRGB img 128.

(** The reads of a gray frame: 128 on the colour samples, whatever the
    buffer holds on the alpha samples, [undefined] outside. *)
Let grayByte (z : Z) : float :=
  if (z <? 0)%Z then nan
  else if (z mod 4 =? 3)%Z then byteAt (Canvas.data img) z
  else if (z <? 1228800)%Z then 128
  else nan.

Let grayRead (i : float) : float :=
  match to_index i with
  | Some z => grayByte z
  | None => nan
  end.

Lemma byteAt_gray (z : Z) : byteAt (Canvas.data img) z = grayByte z.
Proof.
  unfold grayByte. destruct (z <? 0)%Z eqn:Hneg; [unfold byteAt; now rewrite Hneg|].
  destruct (z mod 4 =? 3)%Z eqn:Halpha; [reflexivity|].
  apply Z.ltb_ge in Hneg. apply Z.eqb_neq in Halpha.
  unfold byteAt. replace (z <? 0)%Z with false by (symmetry; now apply Z.ltb_ge).
  destruct (z <? 1228800)%Z eqn:Hin.
  - apply Z.ltb_lt in Hin.
    pose proof (Z.mod_pos_bound z 4 ltac:(lia)) as Hmod.
    pose proof (Z.div_mod z 4 ltac:(lia)) as Hdiv.
    rewrite Hdiv at 1.
    rewrite (Hgray (z / 4)%Z (z mod 4)%Z); [reflexivity| |lia].
    rewrite Hwidth, Hheight. split; [apply Z.div_pos; lia|].
    apply Z.div_lt_upper_bound; lia.
  - apply Z.ltb_ge in Hin.
    replace (nth_error (Canvas.data img) (Z.to_nat z)) with (@None Z);
      [reflexivity|].
    symmetry. apply nth_error_None. unfold Canvas.dataLength in Hlength. lia.
Qed.

Lemma typedGet_gray (i : float) : typedGet (Canvas.data img) i = grayRead i.
Proof.
  unfold typedGet, grayRead. destruct (to_index i); [apply byteAt_gray|reflexivity].
Qed.

Lemma analyse_gray :
  analyse 17 (typedGet (Canvas.data img)) (of_Z 1228800) 640 480
  = Some (true, 0, 128).
Proof.
  rewrite (analyse_ext _ grayRead 17 _ 640 480 typedGet_gray).
  unfold grayRead, grayByte. generalize (Canvas.data img). intros d.
  vm_compute. reflexivity.
Qed.

Lemma signature_gray :
  generateFaceSignature img (centeredRect 640 480) = repeat (128 / 255) 128.
Proof.
  unfold generateFaceSignature, signatureEntry.
  rewrite Hwidth, Hlength.
  erewrite map_ext; [|intros i; apply sampleEntry_ext, byteAt_gray].
  unfold grayByte. generalize (Canvas.data img). intros d.
  vm_compute. reflexivity.
Qed.

Lemma detectFaces_gray (fuel : nat) :
  (17 <= fuel)%nat ->
  detectFaces fuel img =
  Some {| isFaceDetected := true;
          colorVariance := 0;
          brightnessAvg := 128;
          faceSignature := Some (repeat (128 / 255) 128) |}.
Proof.
  intros Hfuel. unfold detectFaces. rewrite Hwidth, Hheight, Hlength.
  rewrite (analyse_more_fuel _ _ _ _ _ _ analyse_gray fuel Hfuel).
  rewrite signature_gray. reflexivity.
Qed.

End GrayFrame.

Section HeuristicClaims.

Import JS TensorflowDemo.
Open Scope float_scope.

Lemma solidFrame_length (w h r g b a : Z) :
  Canvas.dataLength (Canvas.solidFrame w h r g b a)
  = (4 * Z.of_nat (Z.to_nat (w * h)))%Z.
Proof.
  unfold Canvas.dataLength, Canvas.solidFrame. cbn [Canvas.data].
  rewrite length_concat_repeat. cbn [length]. lia.
Qed.

Lemma solidFrame_uniform (w h v a : Z) :
  Canvas.uniformRGB (Canvas.solidFrame w h v v v a) v.
Proof.
  intros p c Hp Hc. unfold Canvas.solidFrame in *.
  cbn [Canvas.data Canvas.width Canvas.height] in *.
  replace (Z.to_nat (4 * p + c))
    with (Z.to_nat p * length [v; v; v; a] + Z.to_nat c)%nat
    by (cbn [length]; lia).
  rewrite nth_error_concat_repeat by (cbn [length]; lia).
  assert (Hc' : c = 0%Z \/ c = 1%Z \/ c = 2%Z) by lia.
  destruct Hc' as [-> | [-> | ->]]; reflexivity.
Qed.

Lemma solidFrame_wellFormed (w h r g b a : Z) :
  (0 <= w)%Z -> (0 <= h)%Z ->
  (0 <= r <= 255)%Z -> (0 <= g <= 255)%Z -> (0 <= b <= 255)%Z ->
  (0 <= a <= 255)%Z ->
  Canvas.wellFormed (Canvas.solidFrame w h r g b a).
Proof.
  intros Hw Hh Hr Hg Hb Ha. unfold Canvas.wellFormed.
  rewrite solidFrame_length. cbn [Canvas.width Canvas.height Canvas.data
                                   Canvas.solidFrame].
  repeat split; try lia.
  apply Forall_concat, Forall_forall. intros pixel Hpixel.
  apply repeat_spec in Hpixel. subst pixel. repeat constructor; lia.
Qed.

(** On a 640x480 frame the two loops visit the pixels the specification
    describes, whatever the reads return. *)
Lemma analyse_on_grid (get : Z -> float) :
  analyse 17
    (fun i => match to_index i with Some z => get z | None => nan end)
    (of_Z 1228800) 640 480
  = Some (HeuristicRule.present get 640 480,
          HeuristicRule.colorVariance get 640 480,
          HeuristicRule.brightness get 640 480).
Proof. vm_compute. reflexivity. Qed.

Lemma detectFaces_on_grid (img : Canvas.ImageData) (fuel : nat) :
  (17 <= fuel)%nat ->
  Canvas.width img = 640%Z -> Canvas.height img = 480%Z ->
  Canvas.dataLength img = 1228800%Z ->
  detectFaces fuel img =
  Some {| isFaceDetected :=
            HeuristicRule.present (byteAt (Canvas.data img)) 640 480;
          colorVariance :=
            HeuristicRule.colorVariance (byteAt (Canvas.data img)) 640 480;
          brightnessAvg :=
            HeuristicRule.brightness (byteAt (Canvas.data img)) 640 480;
          faceSignature :=
            if HeuristicRule.present (byteAt (Canvas.data img)) 640 480
            then Some (generateFaceSignature img (centeredRect 640 480))
            else None |}.
Proof.
  intros Hfuel Hw Hh Hlen. unfold detectFaces. rewrite Hw, Hh, Hlen.
  pose proof (analyse_on_grid (byteAt (Canvas.data img))) as Hgrid.
  change (fun i => match to_index i with
                   | Some z => byteAt (Canvas.data img) z
                   | None => nan
                   end)
    with (typedGet (Canvas.data img)) in Hgrid.
  rewrite (analyse_more_fuel _ _ _ _ _ _ Hgrid fuel Hfuel). reflexivity.
Qed.

Lemma fold_left_agree {A B : Type} (f g : A -> B -> A) (l : list B) :
  (forall a b, In b l -> f a b = g a b) ->
  forall a, fold_left f l a = fold_left g l a.
Proof.
  induction l as [|b l IH]; intros Hfg a; [reflexivity|]. simpl.
  rewrite (Hfg a b (or_introl eq_refl)). apply IH.
  intros a' b' Hb'. apply Hfg. right. exact Hb'.
Qed.

(** The mean of a channel over pixels that all hold [v] there is computed
    from [v] alone. *)
Lemma channelMean_uniform (img : Canvas.ImageData) (v c : Z) :
  Canvas.uniformRGB img v -> (0 <= c < 3)%Z ->
  forallb (HeuristicRule.inFrame (Canvas.width img) (Canvas.height img))
    (HeuristicRule.sampledPixels (Canvas.width img) (Canvas.height img))
  = true ->
  HeuristicRule.channelMean (byteAt (Canvas.data img)) (Canvas.width img)
    (Canvas.height img) c
  = HeuristicRule.channelMean (fun _ => of_Z v) (Canvas.width img)
      (Canvas.height img) c.
Proof.
  intros Hgray Hc Hin. unfold HeuristicRule.channelMean. f_equal.
  apply fold_left_agree. intros total p Hp. f_equal.
  rewrite forallb_forall in Hin. specialize (Hin p Hp).
  unfold HeuristicRule.inFrame in Hin.
  apply andb_prop in Hin. destruct Hin as [Hin Hy1].
  apply andb_prop in Hin. destruct Hin as [Hin Hy0].
  apply andb_prop in Hin. destruct Hin as [Hx0 Hx1].
  apply Z.leb_le in Hx0, Hy0. apply Z.ltb_lt in Hx1, Hy1.
  unfold HeuristicRule.offsetOf.
  set (q := (snd p * Canvas.width img + fst p)%Z).
  assert (Hq : (0 <= q < Canvas.width img * Canvas.height img)%Z)
    by (subst q; nia).
  unfold byteAt.
  replace (4 * q + c <? 0)%Z with false by (symmetry; apply Z.ltb_ge; lia).
  rewrite (Hgray q c Hq Hc). reflexivity.
Qed.

Lemma rule_on_wide_gray (img : Canvas.ImageData) :
  Canvas.width img = 640%Z -> Canvas.height img = 400%Z ->
  Canvas.uniformRGB img 128 ->
  HeuristicRule.present (byteAt (Canvas.data img)) 640 400 = true /\
  HeuristicRule.colorVariance (byteAt (Canvas.data img)) 640 400 = 0 /\
  HeuristicRule.brightness (byteAt (Canvas.data img)) 640 400 = 128.
Proof.
  intros Hw Hh Hgray.
  assert (Hmean : forall c, (0 <= c < 3)%Z ->
    HeuristicRule.channelMean (byteAt (Canvas.data img)) 640 400 c = 128).
  { intros c Hc.
    pose proof (channelMean_uniform img 128 c Hgray Hc) as Hm.
    rewrite Hw, Hh in Hm. rewrite Hm by (vm_compute; reflexivity).
    assert (Hc' : c = 0%Z \/ c = 1%Z \/ c = 2%Z) by lia.
    destruct Hc' as [-> | [-> | ->]]; vm_compute; reflexivity. }
  unfold HeuristicRule.present, HeuristicRule.colorVariance,
    HeuristicRule.brightness. cbv zeta.
  rewrite !Hmean by lia. repeat split; vm_compute; reflexivity.
Qed.

Lemma analyse_wide_gray :
  analyse 15 (typedGet (Canvas.data Scenario.wideGray))
    (of_Z (Canvas.dataLength Scenario.wideGray))
    (Canvas.width Scenario.wideGray) (Canvas.height Scenario.wideGray)
  = Some (false, nan, nan).
Proof. vm_compute. reflexivity. Qed.

(** C3 (a defect of the code): [detectFaces] is meant to apply the rule
    "colour variance below 80, brightness strictly between 80 and 200" to
    the channel means over the centre region, sampled every tenth pixel.
    On 640x480 frames, the size the component asks the camera for, it
    does, for every picture: it finishes and returns the verdict of the
    rule on the 256 pixels the specification describes; a frame whose
    pixels all have R = G = B = 128 is reported as a face with colour
    variance 0, brightness 128 and a descriptor of 128 entries equal to
    128/255.  On a solid gray 640x400 frame the rule gives the same
    verdict, but [detectFaces] reports no face, a NaN variance and a NaN
    brightness: the corner of its square is not floored, its indices are
    not integers, and every read is [undefined]. *)
Theorem detectFaces_rule_on_and_off_grid :
  (forall fuel img,
     (17 <= fuel)%nat ->
     Canvas.width img = 640%Z -> Canvas.height img = 480%Z ->
     Canvas.dataLength img = 1228800%Z ->
     detectFaces fuel img =
     Some {| isFaceDetected :=
               HeuristicRule.present (byteAt (Canvas.data img)) 640 480;
             colorVariance :=
               HeuristicRule.colorVariance (byteAt (Canvas.data img)) 640 480;
             brightnessAvg :=
               HeuristicRule.brightness (byteAt (Canvas.data img)) 640 480;
             faceSignature :=
               if HeuristicRule.present (byteAt (Canvas.data img)) 640 480
               then Some (generateFaceSignature img (centeredRect 640 480))
               else None |})
  /\ (forall fuel img d,
     detectFaces fuel img = Some d ->
     let rect := centeredRect (Canvas.width img) (Canvas.height img) in
     exists t,
       rows fuel fuel (typedGet (Canvas.data img))
         (of_Z (Canvas.dataLength img)) (Canvas.width img) rect (y rect)
         noTotals = Some t /\
       let rAvg := rTotal t / of_Z (pixelCount t) in
       let gAvg := gTotal t / of_Z (pixelCount t) in
       let bAvg := bTotal t / of_Z (pixelCount t) in
       colorVariance d
       = abs (rAvg - gAvg) + abs (rAvg - bAvg) + abs (gAvg - bAvg) /\
       brightnessAvg d = (rAvg + gAvg + bAvg) / 3 /\
       isFaceDetected d
       = (colorVariance d <? 80) && (80 <? brightnessAvg d)
         && (brightnessAvg d <? 200) /\
       faceSignature d
       = if isFaceDetected d then Some (generateFaceSignature img rect)
         else None)
  /\ (forall fuel img,
        (17 <= fuel)%nat ->
        Canvas.width img = 640%Z -> Canvas.height img = 480%Z ->
        Canvas.dataLength img = 1228800%Z ->
        Canvas.uniformRGB img 128 ->
        detectFaces fuel img =
        Some {| isFaceDetected := true;
                colorVariance := 0;
                brightnessAvg := 128;
                faceSignature := Some (repeat (128 / 255) 128) |})
  /\ (forall alpha,
        detectFaces 17 (Canvas.solidFrame 640 480 128 128 128 alpha) =
        Some {| isFaceDetected := true;
                colorVariance := 0;
                brightnessAvg := 128;
                faceSignature := Some (repeat (128 / 255) 128) |})
  /\ (Canvas.wellFormed Scenario.wideGray
      /\ Canvas.uniformRGB Scenario.wideGray 128
      /\ HeuristicRule.present (byteAt (Canvas.data Scenario.wideGray))
           640 400 = true
      /\ HeuristicRule.colorVariance (byteAt (Canvas.data Scenario.wideGray))
           640 400 = 0
      /\ HeuristicRule.brightness (byteAt (Canvas.data Scenario.wideGray))
           640 400 = 128
      /\ forall fuel,
           (15 <= fuel)%nat ->
           detectFaces fuel Scenario.wideGray =
           Some {| isFaceDetected := false;
                   colorVariance := nan;
                   brightnessAvg := nan;
                   faceSignature := None |}).
Proof.
  split; [|split; [|split; [|split]]].
  - intros fuel img Hfuel Hw Hh Hlen.
    exact (detectFaces_on_grid img fuel Hfuel Hw Hh Hlen).
  - intros fuel img d. unfold detectFaces, analyse.
    destruct (rows fuel fuel (typedGet (Canvas.data img))
                (of_Z (Canvas.dataLength img)) (Canvas.width img)
                (centeredRect (Canvas.width img) (Canvas.height img))
                (y (centeredRect (Canvas.width img) (Canvas.height img)))
                noTotals) as [t|]; [|discriminate].
    intros Hd. injection Hd as <-. exists t. cbn -[centeredRect].
    repeat split; reflexivity.
  - intros fuel img Hfuel Hw Hh Hlen Hgray.
    exact (detectFaces_gray img Hw Hh Hlen Hgray fuel Hfuel).
  - intros alpha. apply detectFaces_gray.
    + reflexivity.
    + reflexivity.
    + rewrite solidFrame_length. reflexivity.
    + apply solidFrame_uniform.
    + lia.
  - assert (Hgray : Canvas.uniformRGB Scenario.wideGray 128)
      by apply solidFrame_uniform.
    destruct (rule_on_wide_gray Scenario.wideGray eq_refl eq_refl Hgray)
      as (Hpresent & Hvariance & Hbrightness).
    split; [apply solidFrame_wellFormed; lia|].
    split; [exact Hgray|].
    split; [exact Hpresent|]. split; [exact Hvariance|].
    split; [exact Hbrightness|].
    intros fuel Hfuel. unfold detectFaces.
    rewrite (analyse_more_fuel _ _ _ _ _ _ analyse_wide_gray fuel Hfuel).
    reflexivity.
Qed.

End HeuristicClaims.

(** ** The signature *)

Section Signature.

Import JS TensorflowDemo.
Open Scope float_scope.

Lemma in_byteNumbers (b : Z) : (0 <= b <= 255)%Z -> In (of_Z b) byteNumbers.
Proof.
  intros Hb. unfold byteNumbers. apply in_map, in_map_iff.
  exists (Z.to_nat b). split; [lia|]. apply in_seq. lia.
Qed.

(** All 2^24 colours, by computation. *)
Lemma weights_checked : weightsInUnit byteNumbers = true.
Proof. vm_compute. reflexivity. Qed.

Lemma weightsInUnit_sound (samples : list float) :
  weightsInUnit samples = true ->
  forall r g b, In r samples -> In g samples -> In b samples ->
    inUnit (weighted r g b) = true.
Proof.
  unfold weightsInUnit. intros Hall r g b Hr Hg Hb.
  rewrite forallb_forall in Hall. specialize (Hall r Hr).
  rewrite forallb_forall in Hall. specialize (Hall g Hg).
  rewrite forallb_forall in Hall. exact (Hall b Hb).
Qed.

Lemma weighted_in_unit (r g b : Z) :
  (0 <= r <= 255)%Z -> (0 <= g <= 255)%Z -> (0 <= b <= 255)%Z ->
  inUnit (weighted (of_Z r) (of_Z g) (of_Z b)) = true.
Proof.
  intros Hr Hg Hb.
  exact (weightsInUnit_sound byteNumbers weights_checked _ _ _
           (in_byteNumbers r Hr) (in_byteNumbers g Hg) (in_byteNumbers b Hb)).
Qed.

Lemma byteAt_sample (data : list Z) (k : Z) :
  (0 <= k < Z.of_nat (length data))%Z ->
  Forall (fun b => 0 <= b <= 255)%Z data ->
  exists b, nth_error data (Z.to_nat k) = Some b /\ (0 <= b <= 255)%Z /\
            byteAt data k = of_Z b.
Proof.
  intros Hk Hbytes.
  destruct (nth_error data (Z.to_nat k)) as [b|] eqn:Hnth.
  - exists b. split; [reflexivity|]. split.
    + rewrite Forall_forall in Hbytes. eapply Hbytes, nth_error_In, Hnth.
    + unfold byteAt. replace (k <? 0)%Z with false by (symmetry; apply Z.ltb_ge; lia).
      rewrite Hnth. reflexivity.
  - apply nth_error_None in Hnth. lia.
Qed.

Lemma generateFaceSignature_entries img r i e :
  nth_error (generateFaceSignature img r) i = Some e ->
  (i < 128)%nat /\ e = signatureEntry img r (Z.of_nat i).
Proof.
  unfold generateFaceSignature. intros He.
  assert (Hi : (i < 128)%nat).
  { assert (Hsome : nth_error (map (fun i => signatureEntry img r (Z.of_nat i))
                                (seq 0 128)) i <> None) by congruence.
    apply nth_error_Some in Hsome.
    rewrite length_map, length_seq in Hsome. exact Hsome. }
  split; [exact Hi|].
  rewrite nth_error_map in He.
  rewrite (nth_error_nth' (seq 0 128) 0%nat) in He
    by (rewrite length_seq; exact Hi).
  rewrite seq_nth in He by exact Hi. simpl in He. congruence.
Qed.

End Signature.

Section SignatureClaims.

Import JS TensorflowDemo.
Open Scope float_scope.

(** C10: a descriptor produced by [generateFaceSignature] from a canvas
    frame has exactly 128 components, each in the closed interval [0, 1]:
    a sample point inside the pixel buffer contributes
    (0.3 R + 0.6 G + 0.1 B) / 255 for the 8-bit samples R, G, B found there,
    and a sample point outside the buffer contributes exactly 0. *)
Theorem generateFaceSignature_unit_interval :
  forall (img : Canvas.ImageData) (r : FaceRect),
    Canvas.wellFormed img ->
    length (generateFaceSignature img r) = 128%nat
    /\ (forall c, In c (generateFaceSignature img r) ->
          (0 <=? c) = true /\ (c <=? 1) = true)
    /\ (forall i e,
          nth_error (generateFaceSignature img r) i = Some e ->
          match samplePoint r (Z.of_nat i) with
          | Some (px, py) =>
              let pixelIndex := ((py * Canvas.width img + px) * 4)%Z in
              if ((0 <=? pixelIndex) && (pixelIndex <? Canvas.dataLength img))%Z
              then exists R G B,
                nth_error (Canvas.data img) (Z.to_nat pixelIndex) = Some R /\
                nth_error (Canvas.data img) (Z.to_nat (pixelIndex + 1))
                = Some G /\
                nth_error (Canvas.data img) (Z.to_nat (pixelIndex + 2))
                = Some B /\
                (0 <= R <= 255)%Z /\ (0 <= G <= 255)%Z /\ (0 <= B <= 255)%Z /\
                e = (of_Z R * c0_3 + of_Z G * c0_6 + of_Z B * c0_1) / 255
              else e = 0
          | None => e = 0
          end).
Proof.
  intros img r (Hw & Hh & Hlen & Hbytes).
  assert (Hentry : forall i e,
    nth_error (generateFaceSignature img r) i = Some e ->
    match samplePoint r (Z.of_nat i) with
    | Some (px, py) =>
        let pixelIndex := ((py * Canvas.width img + px) * 4)%Z in
        if ((0 <=? pixelIndex) && (pixelIndex <? Canvas.dataLength img))%Z
        then exists R G B,
          nth_error (Canvas.data img) (Z.to_nat pixelIndex) = Some R /\
          nth_error (Canvas.data img) (Z.to_nat (pixelIndex + 1)) = Some G /\
          nth_error (Canvas.data img) (Z.to_nat (pixelIndex + 2)) = Some B /\
          (0 <= R <= 255)%Z /\ (0 <= G <= 255)%Z /\ (0 <= B <= 255)%Z /\
          e = (of_Z R * c0_3 + of_Z G * c0_6 + of_Z B * c0_1) / 255
        else e = 0
    | None => e = 0
    end).
  { intros i e He.
    apply generateFaceSignature_entries in He. destruct He as [_ ->].
    unfold signatureEntry, sampleEntry.
    destruct (samplePoint r (Z.of_nat i)) as [[px py]|]; [|reflexivity].
    cbv zeta.
    set (k := ((py * Canvas.width img + px) * 4)%Z).
    destruct ((0 <=? k)%Z && (k <? Canvas.dataLength img)%Z) eqn:Hin;
      [|reflexivity].
    apply andb_prop in Hin. destruct Hin as [H0 Hk].
    apply Z.leb_le in H0. apply Z.ltb_lt in Hk.
    assert (Hk2 : (k + 2 < Canvas.dataLength img)%Z) by (subst k; lia).
    unfold Canvas.dataLength in *.
    destruct (byteAt_sample (Canvas.data img) k) as (R & HR & HRb & ->);
      [lia|exact Hbytes|].
    destruct (byteAt_sample (Canvas.data img) (k + 1)) as (G & HG & HGb & ->);
      [lia|exact Hbytes|].
    destruct (byteAt_sample (Canvas.data img) (k + 2)) as (B & HB & HBb & ->);
      [lia|exact Hbytes|].
    exists R, G, B. repeat split; auto; lia. }
  split; [|split; [|exact Hentry]].
  - unfold generateFaceSignature. rewrite length_map, length_seq. reflexivity.
  - intros c Hc. apply In_nth_error in Hc. destruct Hc as [i Hi].
    specialize (Hentry i c Hi).
    destruct (samplePoint r (Z.of_nat i)) as [[px py]|];
      [|subst c; split; reflexivity].
    cbv zeta in Hentry.
    destruct ((0 <=? (py * Canvas.width img + px) * 4)%Z
              && ((py * Canvas.width img + px) * 4 <? Canvas.dataLength img)%Z);
      [|subst c; split; reflexivity].
    destruct Hentry as (R & G & B & _ & _ & _ & HR & HG & HB & ->).
    pose proof (weighted_in_unit R G B HR HG HB) as Hunit.
    unfold inUnit, weighted in Hunit. apply andb_prop in Hunit. exact Hunit.
Qed.

(** The theorem applies: a 2x2 frame of one colour and its centred
    square. *)
Lemma generateFaceSignature_unit_interval_witness :
  Canvas.wellFormed (Canvas.solidFrame 2 2 10 20 30 255) /\
  length (generateFaceSignature (Canvas.solidFrame 2 2 10 20 30 255)
            (centeredRect 2 2)) = 128%nat.
Proof.
  assert (Hwf : Canvas.wellFormed (Canvas.solidFrame 2 2 10 20 30 255)).
  { unfold Canvas.wellFormed. simpl.
    repeat split; try lia; repeat constructor; lia. }
  split; [exact Hwf|].
  exact (proj1 (generateFaceSignature_unit_interval
                  (Canvas.solidFrame 2 2 10 20 30 255) (centeredRect 2 2) Hwf)).
Defined.

End SignatureClaims.

(** ** Signs of Numbers *)

Section NumberSigns.

Import JS.
Open Scope float_scope.

Lemma round_not_negative (m e : Z) (l : location) :
  notNegative (binary_round_aux prec emax false m e l).
Proof.
  unfold binary_round_aux.
  destruct (shr_fexp prec emax m e l) as [mrs1 e1].
  destruct (shr_fexp prec emax _ e1 loc_Exact) as [mrs2 e2].
  destruct (shr_m mrs2); simpl; auto.
  match goal with |- notNegative (if ?c then _ else _) => destruct c end;
    exact I.
Qed.

Lemma div_not_negative (a : spec_float) (m : positive) (e : Z) :
  notNegative a -> notNegative (SF64div a (S754_finite false m e)).
Proof.
  unfold SF64div, SFdiv.
  destruct a as [s|s| |s ma ea]; simpl; auto; destruct s; simpl; auto;
    try contradiction.
  intros _. destruct (SFdiv_core_binary prec emax (Z.pos ma) ea (Z.pos m) e)
    as [[mz ez] lz].
  apply round_not_negative.
Qed.

Lemma mul_not_negative (a : spec_float) (m : positive) (e : Z) :
  notNegative a -> notNegative (SF64mul a (S754_finite false m e)).
Proof.
  unfold SF64mul, SFmul.
  destruct a as [s|s| |s ma ea]; simpl; auto; destruct s; simpl; auto;
    try contradiction.
  intros _. apply round_not_negative.
Qed.

Lemma of_Z_not_negative (z : Z) : (0 <= z)%Z -> notNegative (Prim2SF (of_Z z)).
Proof.
  intros Hz. destruct z as [|p|p]; [exact I| |lia].
  unfold of_Z. rewrite of_uint63_spec.
  pose proof (Uint63.to_Z_bounded (Uint63.of_Z (Z.pos p))) as [Hlo _].
  destruct (Uint63.to_Z (Uint63.of_Z (Z.pos p))) as [|q|q]; [exact I| |lia].
  unfold binary_normalize, binary_round.
  destruct (shl_align q 0 _) as [mz ez]. apply round_not_negative.
Qed.

Lemma not_negative_not_below_zero (x : float) :
  notNegative (Prim2SF x) -> (x <? 0) = false.
Proof.
  rewrite ltb_spec. change (Prim2SF 0) with (S754_zero false).
  destruct (Prim2SF x) as [s|s| |s m e]; simpl; try reflexivity;
    destruct s; simpl; try reflexivity; contradiction.
Qed.

End NumberSigns.

(** ** The motion detector *)

Section MotionLoop.

Import JS MotionDetector.

Variable sensitivity : Z.
Variables currentData previousData : list Z.
Variable dataLength : Z.

(** The loop finishes: each round moves the offset by 16. *)
Lemma compareLoop_total : forall fuel i motionPixels,
  (dataLength - 3 - i <= 16 * Z.of_nat fuel)%Z ->
  exists n,
    compareLoop (S fuel) sensitivity currentData previousData dataLength i
      motionPixels = Some n.
Proof.
  induction fuel as [|k IH]; intros i motionPixels Hfuel;
    cbn [compareLoop];
    (destruct (i <? dataLength - 3)%Z eqn:Hi; [|eauto]);
    apply Z.ltb_lt in Hi; [lia|].
  apply IH. lia.
Qed.

(** What the loop counts: the changed pixels among the offsets visited. *)
Lemma compareLoop_counts : forall fuel i motionPixels n,
  compareLoop fuel sensitivity currentData previousData dataLength i
    motionPixels = Some n ->
  n = (motionPixels
       + changedCount sensitivity currentData previousData
           (sampledOffsets fuel dataLength i))%Z.
Proof.
  unfold changedCount.
  induction fuel as [|k IH]; intros i motionPixels n; simpl; [discriminate|].
  destruct (i <? dataLength - 3)%Z.
  - intros Hn. apply IH in Hn. simpl.
    destruct (pixelChanged sensitivity currentData previousData i);
      simpl length; lia.
  - intros Hn. injection Hn as <-. simpl. lia.
Qed.

Lemma sampledOffsets_step (fuel : nat) (i : Z) :
  sampledOffsets (S fuel) dataLength i
  = if (i <? dataLength - 3)%Z
    then i :: sampledOffsets fuel dataLength (i + 16)
    else [].
Proof. reflexivity. Qed.

(** How many pixels the loop samples. *)
Lemma sampledOffsets_length : forall fuel i,
  (dataLength - 3 - i <= 16 * Z.of_nat fuel)%Z ->
  length (sampledOffsets (S fuel) dataLength i)
  = Z.to_nat ((dataLength - 3 - i + 15) / 16).
Proof.
  assert (Hnone : forall i, (dataLength - 3 <= i)%Z ->
            Z.to_nat ((dataLength - 3 - i + 15) / 16) = 0%nat).
  { intros i Hi.
    assert ((dataLength - 3 - i + 15) / 16 <= 0)%Z
      by (apply Z.lt_succ_r, Z.div_lt_upper_bound; lia).
    lia. }
  induction fuel as [|k IH]; intros i Hfuel; rewrite sampledOffsets_step;
    destruct (i <? dataLength - 3)%Z eqn:Hi;
    try (apply Z.ltb_lt in Hi); try (apply Z.ltb_ge in Hi);
    try (rewrite Hnone by lia; reflexivity); try lia.
  cbn [length]. rewrite IH by lia.
  replace (dataLength - 3 - i + 15)%Z
    with ((dataLength - 3 - (i + 16) + 15) + 1 * 16)%Z by lia.
  rewrite Z.div_add by lia.
  assert (0 <= (dataLength - 3 - (i + 16) + 15) / 16)%Z
    by (apply Z.div_pos; lia).
  lia.
Qed.

Lemma countMotionPixels_total :
  (0 <= dataLength)%Z ->
  exists n,
    countMotionPixels sensitivity currentData previousData dataLength = Some n.
Proof.
  intros Hlen. apply compareLoop_total. unfold fuelFor. lia.
Qed.

End MotionLoop.

Section MotionFacts.

Import JS MotionDetector.

(** A pixel does not differ from itself by more than a sensitivity that
    is not negative. *)
Lemma pixelChanged_same (sensitivity : Z) (data : list Z) (i : Z) :
  (0 <= sensitivity)%Z -> pixelChanged sensitivity data data i = false.
Proof.
  intros Hs.
  assert (Hch : forall j, exceeds sensitivity (channelDiff data data j) = false).
  { intros j. unfold channelDiff. destruct (sample data j); [|reflexivity].
    simpl. apply Z.ltb_ge. lia. }
  unfold pixelChanged. rewrite !Hch. reflexivity.
Qed.

Lemma compareLoop_same (sensitivity : Z) (data : list Z) (dataLength : Z) :
  (0 <= sensitivity)%Z ->
  forall fuel i motionPixels n,
    compareLoop fuel sensitivity data data dataLength i motionPixels = Some n ->
    n = motionPixels.
Proof.
  intros Hs. induction fuel as [|k IH]; intros i motionPixels n; simpl;
    [discriminate|].
  destruct (i <? dataLength - 3)%Z.
  - rewrite pixelChanged_same by exact Hs. apply IH.
  - intros Hn. injection Hn as <-. reflexivity.
Qed.

(** No count of zero exceeds the threshold, whatever the buffer size. *)
Lemma zero_never_exceeds (dataLength : Z) :
  (0 <= dataLength)%Z -> exceedsThreshold 0 dataLength = false.
Proof.
  intros Hlen. unfold exceedsThreshold, gtb.
  change (of_Z 0) with 0%float.
  apply not_negative_not_below_zero.
  rewrite mul_spec, div_spec.
  change (Prim2SF c0_01) with (S754_finite false 5764607523034235 (-59)).
  change (Prim2SF 16) with (S754_finite false 4503599627370496 (-48)).
  apply mul_not_negative, div_not_negative, of_Z_not_negative, Hlen.
Qed.

Lemma detectMotion_total (sensitivity : Z) (frame : Canvas.ImageData)
    (st : State) :
  exists st', detectMotion sensitivity frame st = Some st'.
Proof.
  unfold detectMotion, verdict.
  destruct (previousFrame st) as [previous|]; [|eauto].
  destruct ((Canvas.width previous =? Canvas.width frame)%Z
            && (Canvas.height previous =? Canvas.height frame)%Z); [|eauto].
  destruct (length (Canvas.data frame) =? length (Canvas.data previous))%nat;
    [|eauto].
  destruct (countMotionPixels_total sensitivity (Canvas.data frame)
              (Canvas.data previous)
              (Z.min (Z.of_nat (length (Canvas.data frame)))
                     (Z.of_nat (length (Canvas.data previous)))))
    as [n Hn]; [lia|].
  rewrite Hn. eauto.
Qed.

(** As long as no frame has been kept, the flag is down. *)
Lemma reachable_no_previous (st : State) :
  reachable st -> previousFrame st = None -> motionDetected st = false.
Proof.
  induction 1 as [|sensitivity frame st st' Hst IH Htick|st Hst IH].
  - reflexivity.
  - unfold detectMotion in Htick.
    destruct (verdict sensitivity frame st); [|discriminate].
    injection Htick as <-. discriminate.
  - reflexivity.
Qed.

(** Two identical frames never raise the flag. *)
Lemma identical_frames_no_motion (sensitivity : Z) (frame : Canvas.ImageData)
    (flag : bool) :
  (0 <= sensitivity)%Z ->
  detectMotion sensitivity frame
    {| previousFrame := Some frame; motionDetected := flag |}
  = Some {| previousFrame := Some frame; motionDetected := false |}.
Proof.
  intros Hs. unfold detectMotion, verdict. cbn [previousFrame motionDetected].
  rewrite !Z.eqb_refl, Nat.eqb_refl. cbn [andb].
  rewrite Z.min_id.
  destruct (countMotionPixels_total sensitivity (Canvas.data frame)
              (Canvas.data frame) (Z.of_nat (length (Canvas.data frame))))
    as [n Hn]; [lia|].
  rewrite Hn. unfold countMotionPixels in Hn.
  apply (compareLoop_same _ _ _ Hs) in Hn. subst n.
  rewrite zero_never_exceeds by lia. reflexivity.
Qed.

End MotionFacts.

Section MotionClaims.

Import JS MotionDetector Scenario.

(** With a previous frame of the same size, the tick counts the changed
    pixels among the sampled offsets and compares the count with one
    hundredth of a sixteenth of the buffer length. *)
Lemma detectMotion_compares (sensitivity : Z) (frame previous : Canvas.ImageData)
    (flag : bool) :
  Canvas.width previous = Canvas.width frame ->
  Canvas.height previous = Canvas.height frame ->
  length (Canvas.data frame) = length (Canvas.data previous) ->
  let dataLength := Canvas.dataLength frame in
  detectMotion sensitivity frame
    {| previousFrame := Some previous; motionDetected := flag |}
  = Some {| previousFrame := Some frame;
            motionDetected :=
              exceedsThreshold
                (changedCount sensitivity (Canvas.data frame)
                   (Canvas.data previous)
                   (sampledOffsets (fuelFor dataLength) dataLength 0))
                dataLength |}.
Proof.
  intros Hw Hh Hlen dataLength. unfold detectMotion, verdict.
  cbn [previousFrame motionDetected].
  rewrite Hw, Hh, !Z.eqb_refl, <- Hlen, Nat.eqb_refl. cbn [andb].
  rewrite Z.min_id. fold (Canvas.dataLength frame). fold dataLength.
  destruct (countMotionPixels_total sensitivity (Canvas.data frame)
              (Canvas.data previous) dataLength) as [n Hn];
    [unfold dataLength, Canvas.dataLength; lia|].
  rewrite Hn. unfold countMotionPixels in Hn.
  apply compareLoop_counts in Hn. rewrite Hn. reflexivity.
Qed.

(** C4: the tick compares every fourth pixel (stride 16 in the buffer),
    counts a sampled pixel as changed when a colour channel moved by more
    than the sensitivity, and two identical frames never raise the flag;
    but the verdict is taken against a hundredth of [dataLength / 16],
    while the number of pixels sampled is [(dataLength + 12) / 16] rounded
    down: between a dark 133x3 frame and the same frame with one sampled
    pixel lit, 100 pixels are sampled, 1 has changed, 1 does not exceed 1%
    of 100, and the flag is raised. *)
Theorem detectMotion_threshold_is_not_of_sampled_count :
  (forall sensitivity frame previous flag,
     Canvas.width previous = Canvas.width frame ->
     Canvas.height previous = Canvas.height frame ->
     length (Canvas.data frame) = length (Canvas.data previous) ->
     detectMotion sensitivity frame
       {| previousFrame := Some previous; motionDetected := flag |}
     = Some {| previousFrame := Some frame;
               motionDetected :=
                 exceedsThreshold
                   (changedCount sensitivity (Canvas.data frame)
                      (Canvas.data previous)
                      (sampledOffsets (fuelFor (Canvas.dataLength frame))
                         (Canvas.dataLength frame) 0))
                   (Canvas.dataLength frame) |})
  /\ (forall dataLength,
        (0 <= dataLength)%Z ->
        length (sampledOffsets (fuelFor dataLength) dataLength 0)
        = Z.to_nat ((dataLength + 12) / 16))
  /\ (forall sensitivity frame flag,
        (0 <= sensitivity)%Z ->
        detectMotion sensitivity frame
          {| previousFrame := Some frame; motionDetected := flag |}
        = Some {| previousFrame := Some frame; motionDetected := false |})
  /\ detectMotion 20 flashFrame
       {| previousFrame := Some darkFrame; motionDetected := false |}
     = Some {| previousFrame := Some flashFrame; motionDetected := true |}
  /\ length (sampledOffsets (fuelFor 1596) 1596 0) = 100%nat
  /\ changedCount 20 (Canvas.data flashFrame) (Canvas.data darkFrame)
       (sampledOffsets (fuelFor 1596) 1596 0) = 1%Z
  /\ exceedsOnePercent 1 100 = false.
Proof.
  split; [exact detectMotion_compares|].
  split.
  { intros dataLength Hlen. unfold fuelFor.
    rewrite sampledOffsets_length by lia. f_equal. f_equal. lia. }
  split; [exact identical_frames_no_motion|].
  repeat split; vm_compute; reflexivity.
Qed.

(** C5 as stated fails: after a tick that saw motion, a frame of another
    size leaves the flag up. *)
Lemma detectMotion_resize_keeps_flag :
  ~ (forall sensitivity frame st,
       reachable st -> noComparablePrevious frame st ->
       exists st',
         detectMotion sensitivity frame st = Some st' /\
         motionDetected st' = false).
Proof.
  intros Hclaim.
  set (st1 := {| previousFrame := Some blackFrame; motionDetected := false |}).
  set (st2 := {| previousFrame := Some whiteFrame; motionDetected := true |}).
  assert (H1 : reachable st1).
  { apply (reach_tick 20 blackFrame initial); [constructor|reflexivity]. }
  assert (H2 : reachable st2).
  { apply (reach_tick 20 whiteFrame st1); [exact H1|].
    vm_compute. reflexivity. }
  destruct (Hclaim 20%Z smallFrame st2 H2) as (st' & Htick & Hflag).
  - simpl. left. discriminate.
  - vm_compute in Htick. injection Htick as <-. discriminate.
Qed.

(** C5, amended: a tick that finds no previous frame, or one of another
    size, raises no error and compares nothing: it keeps the current frame
    and leaves the flag as it was; the flag is down as long as no frame has
    been kept. *)
Theorem detectMotion_without_comparable_previous :
  forall sensitivity frame st,
    reachable st ->
    noComparablePrevious frame st ->
    detectMotion sensitivity frame st
    = Some {| previousFrame := Some frame;
              motionDetected := motionDetected st |}
    /\ (previousFrame st = None -> motionDetected st = false).
Proof.
  intros sensitivity frame st Hst Hprev.
  split; [|apply reachable_no_previous, Hst].
  unfold detectMotion, verdict. unfold noComparablePrevious in Hprev.
  destruct (previousFrame st) as [previous|]; [|reflexivity].
  destruct Hprev as [Hw | Hh].
  - apply Z.eqb_neq in Hw. rewrite Hw. reflexivity.
  - apply Z.eqb_neq in Hh. rewrite Hh, andb_false_r. reflexivity.
Qed.

Lemma detectMotion_without_comparable_previous_witness :
  reachable initial /\ noComparablePrevious smallFrame initial /\
  detectMotion 20 smallFrame initial
  = Some {| previousFrame := Some smallFrame; motionDetected := false |}.
Proof.
  split; [exact reach_initial|]. split; [exact I|].
  exact (proj1 (detectMotion_without_comparable_previous
                  20%Z smallFrame initial reach_initial I)).
Defined.

End MotionClaims.

(** ** The registry of saved faces *)

Section Registry.

Import FaceApi.

Lemma to_int_is_written (n : Z) :
  NilZero.int_of_string (toString n) = Some (Z.to_int n).
Proof.
  unfold toString. apply NilZero.isi; destruct n; simpl;
    try discriminate; intros H; injection H; apply Unsigned.to_uint_nonnil.
Qed.

(** Different clock readings are written differently. *)
Lemma toString_inj (m n : Z) : toString m = toString n -> m = n.
Proof.
  intros H. apply DecimalZ.to_int_inj.
  pose proof (to_int_is_written m) as Hm. rewrite H, to_int_is_written in Hm.
  congruence.
Qed.

Lemma idsOf_app (l1 l2 : list value) : idsOf (l1 ++ l2) = idsOf l1 ++ idsOf l2.
Proof. apply flat_map_app. Qed.

Lemma idsOf_filter_incl (keep : value -> bool) (faces : list value) (i : value) :
  In i (idsOf (filter keep faces)) -> In i (idsOf faces).
Proof.
  unfold idsOf. rewrite !in_flat_map. intros (face & Hin & Hi).
  apply filter_In in Hin. exists face. tauto.
Qed.

Lemma uniqueIds_filter (keep : value -> bool) (faces : list value) :
  uniqueIds faces -> uniqueIds (filter keep faces).
Proof.
  unfold uniqueIds. induction faces as [|face faces IH]; intros Hfaces;
    [constructor|].
  change (idsOf (face :: faces))
    with ((match getProp face "id" with Some i => [i] | None => [] end)
          ++ idsOf faces) in Hfaces.
  simpl filter. destruct (keep face).
  - change (idsOf (face :: filter keep faces))
      with ((match getProp face "id" with Some i => [i] | None => [] end)
            ++ idsOf (filter keep faces)).
    destruct (getProp face "id") as [i|]; simpl app in *; [|auto].
    inversion Hfaces as [|? ? Hnotin Hrest]; subst. constructor; [|auto].
    intros Hin. apply Hnotin. eapply idsOf_filter_incl, Hin.
  - apply IH. eapply NoDup_app_remove_l, Hfaces.
Qed.

Lemma savedFaces_removeFace (id : string) (st : State) :
  savedFaces (removeFace id st)
  = filter (fun face => negb (hasId id face)) (savedFaces st).
Proof.
  unfold removeFace. destruct (matchedFace st) as [m|]; [|reflexivity].
  destruct (hasId id m); reflexivity.
Qed.

(** [saveFace] either leaves the registry alone or appends one entry,
    whose id is the clock reading. *)
Lemma savedFaces_saveFace (env : Surroundings) (st : State) :
  savedFaces (saveFace env st) = savedFaces st \/
  exists name savedAt descriptor,
    savedFaces (saveFace env st)
    = savedFaces st ++ [newFace (toString (now env)) name savedAt descriptor].
Proof.
  unfold saveFace.
  destruct (negb (faceDetected st) || (trim (faceName st) =? "")%string
            || negb (videoMounted env)); [left; reflexivity|].
  destruct (detections env) as [[|d rest]|];
    [left; reflexivity| |left; reflexivity].
  right. do 3 eexists. reflexivity.
Qed.

Lemma idsOf_newFace (id name savedAt : string) (descriptor : list float) :
  idsOf [newFace id name savedAt descriptor] = [VStr id].
Proof. reflexivity. Qed.

(** What the export and re-import do to a value that holds only numbers
    JSON can carry. *)
Lemma toJson_exact : forall v, jsonExact v = true -> toJson v = v.
Proof.
  fix IH 1. intros [ |b|x|s|items|fields] Hv; simpl in *; try reflexivity.
  - unfold numberToJson, exactNumber in *.
    apply andb_prop in Hv. destruct Hv as [Hfin Hzero].
    apply negb_true_iff in Hfin. apply negb_true_iff in Hzero.
    rewrite Hfin, Hzero. reflexivity.
  - f_equal. induction items as [|item items IHitems]; [reflexivity|].
    simpl in *. apply andb_prop in Hv. destruct Hv as [Hitem Hitems].
    rewrite (IH item Hitem), (IHitems Hitems). reflexivity.
  - f_equal. induction fields as [|[k v] fields IHfields]; [reflexivity|].
    simpl in *. apply andb_prop in Hv. destruct Hv as [Hfield Hfields].
    rewrite (IH v Hfield), (IHfields Hfields). reflexivity.
Qed.

Lemma map_toJson_exact (faces : list value) :
  forallb jsonExact faces = true -> map toJson faces = faces.
Proof.
  induction faces as [|face faces IH]; [reflexivity|]. simpl.
  intros H. apply andb_prop in H. destruct H as [Hface Hfaces].
  rewrite (toJson_exact face Hface), (IH Hfaces). reflexivity.
Qed.

(** What export followed by import into a fresh component yields. *)
Lemma roundTrip_is_toJson (faces : list value) :
  roundTrip faces = map toJson faces.
Proof.
  unfold roundTrip, exportFaces. simpl savedFaces.
  destruct faces as [|face faces]; reflexivity.
Qed.

End Registry.

Section RegistryClaims.

Import FaceApi Scenario.

(** C6 as stated fails: a batch with an entry that has no name, no
    descriptor, no id and no date is appended as it is, and no error is
    set. *)
Lemma importFaces_takes_malformed_entries :
  ~ (forall batch st,
       (exists face, In face batch /\ validEntry face = false) ->
       savedFaces (importFaces (Some (Json (VArr batch))) st) = savedFaces st
       /\ error (importFaces (Some (Json (VArr batch))) st) <> None).
Proof.
  intros Hclaim.
  destruct (Hclaim [VObj []] initial) as [Hsaved _].
  - exists (VObj []). split; [left; reflexivity|reflexivity].
  - discriminate Hsaved.
Qed.

(** C6, amended: [importFaces] validates no entry.  A file that parses to
    a non-empty array has all its elements appended, in order and whatever
    their shape; a file that does not parse sets the error message and
    leaves the registry alone; no file, an empty array or a value that is
    not an array change nothing.  So the import is all or nothing: the
    registry afterwards is the old one, or the old one followed by the
    whole batch. *)
Theorem importFaces_all_or_nothing :
  (forall first others st,
     importFaces (Some (Json (VArr (first :: others)))) st
     = setSavedFaces (savedFaces st ++ first :: others) st)
  /\ savedFaces (importFaces (Some (Json (VArr [VObj []; annFace]))) initial)
     = [VObj []; annFace]
  /\ (forall st,
        importFaces (Some NotJson) st
        = setError "Invalid face signatures file. Please try again." st)
  /\ (forall st,
        importFaces None st = st /\
        importFaces (Some (Json (VArr []))) st = st)
  /\ (forall v st,
        (forall items, v <> VArr items) ->
        importFaces (Some (Json v)) st = st)
  /\ (forall file st,
        savedFaces (importFaces file st) = savedFaces st \/
        exists batch,
          file = Some (Json (VArr batch)) /\
          savedFaces (importFaces file st) = savedFaces st ++ batch).
Proof.
  split; [reflexivity|]. split; [reflexivity|]. split; [reflexivity|].
  split; [split; reflexivity|]. split.
  - intros v st Hv. destruct v as [ |b|x|s|items|fields]; try reflexivity.
    destruct (Hv items eq_refl).
  - intros [[|v]|] st; try (left; reflexivity).
    destruct v as [ |b|x|s|[|first others]|fields]; try (left; reflexivity).
    right. exists (first :: others). split; reflexivity.
Qed.

(** C7 as stated fails: with a name of blanks only, [saveFace] returns
    without setting any error. *)
Lemma saveFace_blank_name_is_silent :
  ~ (forall env st,
       trim (faceName st) = ""%string ->
       savedFaces (saveFace env st) = savedFaces st /\
       error (saveFace env st) <> None).
Proof.
  intros Hclaim.
  destruct (Hclaim annSurroundings blankName eq_refl) as [_ Herror].
  apply Herror. reflexivity.
Qed.

(** C7, amended: when no face is flagged as detected, the trimmed name is
    empty or the video element is missing, [saveFace] does nothing and sets
    no error.  Otherwise, if the detector finds no face (or throws) it sets
    an error message and leaves the registry alone; if it finds one, a new
    entry is appended at the end of the registry, with the clock reading in
    decimal as its id, the trimmed name, the date and the first descriptor,
    and the name field is cleared.  Nothing is returned to the caller. *)
Theorem saveFace_outcomes :
  forall env st,
    (faceDetected st = false \/ trim (faceName st) = ""%string \/
     videoMounted env = false ->
     saveFace env st = st)
    /\ (faceDetected st = true ->
        trim (faceName st) <> ""%string ->
        videoMounted env = true ->
        match detections env with
        | Throws =>
            saveFace env st
            = setError "Failed to save face. Please try again." st
        | Faces [] =>
            saveFace env st
            = setError
                "No face detected. Please position your face in the frame." st
        | Faces (faceDescriptor :: _) =>
            saveFace env st
            = setFaceName ""
                (setSavedFaces
                   (savedFaces st
                    ++ [newFace (toString (now env)) (trim (faceName st))
                          (localeString env) faceDescriptor]) st)
        end)
    /\ saveFace annSurroundings annReady
       = {| savedFaces := [annFace]; faceName := ""; faceDetected := true;
            matchedFace := None; error := None |}.
Proof.
  intros env st. unfold saveFace. split; [|split; [|reflexivity]].
  - intros [Hd | [Hn | Hv]].
    + rewrite Hd. reflexivity.
    + rewrite Hn, orb_true_r. reflexivity.
    + rewrite Hv, orb_true_r. reflexivity.
  - intros Hd Hn Hv. rewrite Hd, Hv.
    apply String.eqb_neq in Hn. rewrite Hn. cbn [negb orb].
    destruct (detections env) as [[|d rest]|]; reflexivity.
Qed.

(** C8 as stated fails: exporting a registry of one face and importing the
    download into the same registry gives two entries with one id. *)
Lemma importFaces_duplicates_ids :
  ~ (forall st, reachable st -> uniqueIds (savedFaces st)).
Proof.
  intros Hclaim.
  assert (Hready : reachable annReady).
  { exact (reach_type " Ann " _ (reach_detect true _ reach_initial)). }
  pose proof (reach_save annSurroundings _ Hready) as Hsaved.
  pose proof (reach_import (exportFaces (saveFace annSurroundings annReady))
                _ Hsaved) as Himported.
  apply Hclaim in Himported. vm_compute in Himported.
  inversion Himported as [|i ids Hnotin _]. apply Hnotin. left. reflexivity.
Qed.

(** C8, amended: the id of an entry is the clock reading at its enrolment,
    in decimal (read back as a number it is that reading, so ids grow as
    the clock does), enrolments at different readings get different ids,
    and no operation changes an entry that is already there (enrolment and
    import append, removal filters).  Removal keeps the ids distinct;
    enrolment keeps them distinct when the new id is not yet in the
    registry.  Import checks no id. *)
Theorem ids_under_registry_operations :
  (forall id st,
     uniqueIds (savedFaces st) -> uniqueIds (savedFaces (removeFace id st)))
  /\ (forall env st,
        uniqueIds (savedFaces st) ->
        ~ In (VStr (toString (now env))) (idsOf (savedFaces st)) ->
        uniqueIds (savedFaces (saveFace env st)))
  /\ (forall m n, toString m = toString n -> m = n)
  /\ (forall n,
        option_map Z.of_int (NilZero.int_of_string (toString n)) = Some n)
  /\ (forall env st,
        savedFaces (saveFace env st) = savedFaces st \/
        exists name savedAt descriptor,
          savedFaces (saveFace env st)
          = savedFaces st
            ++ [newFace (toString (now env)) name savedAt descriptor])
  /\ (forall file st,
        exists batch,
          savedFaces (importFaces file st) = savedFaces st ++ batch)
  /\ (forall id st face,
        In face (savedFaces (removeFace id st)) -> In face (savedFaces st)).
Proof.
  split; [|split; [|split; [|split; [|split; [|split]]]]].
  - intros id st Hst. rewrite savedFaces_removeFace.
    apply uniqueIds_filter, Hst.
  - intros env st Hst Hnew.
    destruct (savedFaces_saveFace env st) as [-> | (n & d & v & ->)];
      [exact Hst|].
    unfold uniqueIds in *. rewrite idsOf_app, idsOf_newFace.
    apply NoDup_app; [exact Hst|repeat constructor; intros []|].
    intros i Hi [<- | []]. exact (Hnew Hi).
  - exact toString_inj.
  - intros n. rewrite to_int_is_written. simpl. now rewrite DecimalZ.of_to.
  - exact savedFaces_saveFace.
  - intros [[|v]|] st; try (exists []; simpl; rewrite app_nil_r; reflexivity).
    destruct v as [ |b|x|s|[|first others]|fields];
      try (exists []; simpl; rewrite app_nil_r; reflexivity).
    exists (first :: others). reflexivity.
  - intros id st face. rewrite savedFaces_removeFace.
    intros Hin. apply filter_In in Hin. tauto.
Qed.

(** C9 as stated fails: an infinity in a descriptor is written as null,
    and comes back as null. *)
Lemma roundTrip_loses_infinity :
  ~ (forall st, reachable st -> roundTrip (savedFaces st) = savedFaces st).
Proof.
  intros Hclaim.
  pose proof (Hclaim _ (reach_import (Some (Json (VArr [overflowFace]))) _
                          reach_initial)) as Hback.
  vm_compute in Hback. discriminate Hback.
Qed.

(** C9, amended: for a registry whose entries hold only numbers that are
    finite and not minus zero, exporting (all entries, in registry order,
    as one JSON array) and importing the download into a fresh component
    gives back the same entries in the same order; an empty registry
    produces no download.  In general every NaN or infinity comes back as
    null and minus zero as zero. *)
Theorem roundTrip_of_exact_registry :
  forall faces,
    forallb jsonExact faces = true ->
    roundTrip faces = faces
    /\ exportFaces (setSavedFaces faces initial)
       = match faces with
         | [] => None
         | _ :: _ => Some (Json (VArr faces))
         end.
Proof.
  intros faces Hexact. split.
  - rewrite roundTrip_is_toJson. apply map_toJson_exact, Hexact.
  - unfold exportFaces, JSON_stringify. simpl savedFaces.
    destruct faces as [|face faces]; [reflexivity|].
    change (length (face :: faces) =? 0)%nat with false. cbv iota.
    change (toJson (VArr (face :: faces)))
      with (VArr (map toJson (face :: faces))).
    rewrite (map_toJson_exact _ Hexact). reflexivity.
Qed.

Lemma roundTrip_of_exact_registry_witness :
  forallb jsonExact [annFace] = true /\ roundTrip [annFace] = [annFace].
Proof.
  split; [reflexivity|].
  exact (proj1 (roundTrip_of_exact_registry [annFace] eq_refl)).
Defined.

End RegistryClaims.

(* ================================================================== *)
(** * Part III: further properties of the code                         *)
(* ================================================================== *)

(** ** More on the order and the arithmetic of Numbers *)

Section NumberFacts.

Import JS NumberShape.
Open Scope float_scope.

Lemma SFleb_ltb_trans (a b c : spec_float) :
  SFleb a b = true -> SFltb b c = true -> SFltb a c = true.
Proof.
  unfold SFleb, SFltb, SFcompare.
  destruct a as [sa|sa| |sa ma ea], b as [sb|sb| |sb mb eb],
           c as [sc|sc| |sc mc ec];
    try discriminate;
    repeat match goal with s : bool |- _ => destruct s end;
    try discriminate; try reflexivity;
    change (Pos.compare_cont Eq) with Pos.compare;
    destruct (Z.compare_spec ea eb), (Z.compare_spec eb ec),
             (Z.compare_spec ea ec);
    try discriminate; try reflexivity; try lia; subst;
    destruct (Pos.compare_spec ma mb), (Pos.compare_spec mb mc),
             (Pos.compare_spec ma mc);
    simpl; try discriminate; try reflexivity; try lia.
Qed.

Lemma SFltb_leb (a b : spec_float) : SFltb a b = true -> SFleb a b = true.
Proof.
  unfold SFleb, SFltb. destruct (SFcompare a b) as [[ | | ]|];
    try discriminate; reflexivity.
Qed.

Lemma leb_ltb_trans (a b c : float) :
  (a <=? b) = true -> (b <? c) = true -> (a <? c) = true.
Proof. rewrite leb_spec, !ltb_spec. apply SFleb_ltb_trans. Qed.

Lemma ltb_leb (a b : float) : (a <? b) = true -> (a <=? b) = true.
Proof. rewrite leb_spec, ltb_spec. apply SFltb_leb. Qed.

(** Nothing at most [b] is left out by a bound that [b] is below. *)
Lemma not_below_not_at_most (a b c : float) :
  (a <? c) = false -> (b <? c) = true -> (a <=? b) = false.
Proof.
  intros Hac Hbc. destruct (a <=? b) eqn:Hab; [|reflexivity].
  rewrite (leb_ltb_trans _ _ _ Hab Hbc) in Hac. discriminate.
Qed.

Lemma not_at_most_smaller (a b c : float) :
  (a <=? c) = false -> (b <? c) = true -> (a <=? b) = false.
Proof.
  intros Hac Hbc. destruct (a <=? b) eqn:Hab; [|reflexivity].
  rewrite (ltb_leb _ _ (leb_ltb_trans _ _ _ Hab Hbc)) in Hac. discriminate.
Qed.

Lemma not_at_most_itself_below (b c : float) :
  (b <? c) = true -> (c <=? b) = false.
Proof.
  intros Hbc. destruct (c <=? b) eqn:Hcb; [|reflexivity].
  pose proof (leb_ltb_trans _ _ _ Hcb Hbc) as Hcc.
  rewrite ltb_irrefl in Hcc. discriminate.
Qed.

Lemma SFeqb_refl (f : spec_float) : f <> S754_nan -> SFeqb f f = true.
Proof.
  unfold SFeqb, SFcompare.
  destruct f as [s|s| |s m e]; try destruct s; try reflexivity;
    try congruence; intros _; rewrite Z.compare_refl;
    change (Pos.compare_cont Eq) with Pos.compare;
    rewrite Pos.compare_refl; reflexivity.
Qed.

Lemma is_finite_shape (x : float) :
  is_finite x = true -> finiteSF (Prim2SF x).
Proof.
  unfold is_finite, is_nan, is_infinity. rewrite !eqb_spec, abs_spec.
  change (Prim2SF infinity) with (S754_infinity false).
  destruct (Prim2SF x) as [s|s| |s m e]; try destruct s; simpl; auto;
    discriminate.
Qed.

(** A finite Number minus itself is zero. *)
Lemma sub_self (x : float) : is_finite x = true -> x - x = 0.
Proof.
  intros H. apply is_finite_shape in H. apply Prim2SF_inj. rewrite sub_spec.
  change (Prim2SF 0) with (S754_zero false).
  destruct (Prim2SF x) as [s|s| |s m e]; try contradiction.
  - destruct s; reflexivity.
  - unfold SF64sub, SFsub. rewrite Z.sub_diag. reflexivity.
Qed.

Lemma round_sign (s : bool) (m e : Z) (l : location) :
  SFabs (binary_round_aux prec emax s m e l)
  = SFabs (binary_round_aux prec emax false m e l).
Proof.
  unfold binary_round_aux.
  destruct (shr_fexp prec emax m e l) as [mrs1 e1].
  destruct (shr_fexp prec emax _ e1 loc_Exact) as [mrs2 e2].
  destruct (shr_m mrs2); simpl; auto.
  match goal with |- context [if ?c then _ else _] => destruct c end;
    reflexivity.
Qed.

Lemma normalize_opp (z e : Z) :
  sameAbs (binary_normalize prec emax z e false)
          (binary_normalize prec emax (- z) e false).
Proof.
  unfold sameAbs, binary_normalize, binary_round.
  destruct z as [|p|p]; simpl; auto.
  - destruct (shl_align p e _) as [mz ez]. symmetry. apply round_sign.
  - destruct (shl_align p e _) as [mz ez]. apply round_sign.
Qed.

(** Swapping the operands of a subtraction changes the sign at most. *)
Lemma sub_swap (a b : spec_float) : sameAbs (SF64sub a b) (SF64sub b a).
Proof.
  unfold SF64sub, SFsub.
  destruct a as [sa|sa| |sa ma ea], b as [sb|sb| |sb mb eb];
    try (destruct sa); try (destruct sb); try reflexivity.
  all: rewrite (Z.min_comm eb ea);
    match goal with
    | |- sameAbs (binary_normalize _ _ ?z _ _) (binary_normalize _ _ ?z' _ _) =>
        replace z' with (- z)%Z by (unfold cond_Zopp; lia)
    end; apply normalize_opp.
Qed.

Lemma square_abs (a b : spec_float) :
  sameAbs a b -> SF64mul a a = SF64mul b b.
Proof.
  unfold sameAbs, SF64mul, SFmul.
  destruct a as [sa|sa| |sa ma ea], b as [sb|sb| |sb mb eb]; simpl;
    try discriminate; auto;
    intros H; inversion H; subst; try destruct sa; try destruct sb;
    reflexivity.
Qed.

Lemma square_diff_sym (x y : float) : (x - y) * (x - y) = (y - x) * (y - x).
Proof.
  apply Prim2SF_inj. rewrite !mul_spec, !sub_spec. apply square_abs, sub_swap.
Qed.

End NumberFacts.

(** ** The matcher, continued *)

Section DistanceFacts.

Import JS NumberShape TensorflowDemo.
Open Scope float_scope.

Lemma nan_plus (y : float) : nan + y = nan.
Proof. apply Prim2SF_inj. rewrite add_spec. reflexivity. Qed.

Lemma sub_self_not_finite (x : float) : is_finite x = false -> x - x = nan.
Proof.
  unfold is_finite, is_nan, is_infinity. rewrite !eqb_spec, abs_spec.
  change (Prim2SF infinity) with (S754_infinity false).
  intros H. apply Prim2SF_inj. rewrite sub_spec.
  change (Prim2SF nan) with S754_nan.
  destruct (Prim2SF x) as [s|s| |s m e] eqn:Hx; try destruct s;
    try reflexivity;
    rewrite SFeqb_refl in H by discriminate; discriminate H.
Qed.

Lemma squares_of_self (d : list float) :
  fold_left add (map (fun p => (fst p - snd p) * (fst p - snd p))
                     (combine d d)) nan = nan
  /\ fold_left add (map (fun p => (fst p - snd p) * (fst p - snd p))
                        (combine d d)) 0
     = if allFinite d then 0 else nan.
Proof.
  induction d as [|x d [IHnan IHzero]]; [split; reflexivity|].
  simpl. rewrite nan_plus. split; [exact IHnan|].
  destruct (is_finite x) eqn:Hx; simpl.
  - rewrite (sub_self x Hx). change (0 + 0 * 0) with 0. exact IHzero.
  - rewrite (sub_self_not_finite x Hx). change (0 + nan * nan) with nan.
    exact IHnan.
Qed.

(** The distance of a descriptor without NaN and infinities from itself. *)
Lemma self_distance_finite (d : list float) :
  allFinite d = true ->
  calculateSignatureDistance (Some d) (Some d) = 0.
Proof.
  intros Hd. unfold calculateSignatureDistance. rewrite Nat.eqb_refl.
  cbn [negb].
  pose proof (sumSquares_fold d d [] [] 0 eq_refl eq_refl) as Hfold.
  cbn [app length] in Hfold. rewrite Hfold.
  rewrite (proj2 (squares_of_self d)), Hd. reflexivity.
Qed.

Lemma sumSquares_swap (a b : list float) : forall n i sum,
  sumSquares n i a b sum = sumSquares n i b a sum.
Proof.
  induction n as [|n IH]; intros i sum; [reflexivity|].
  simpl. rewrite square_diff_sym. apply IH.
Qed.

End DistanceFacts.

Section MatcherExtras.

Import JS NumberShape TensorflowDemo MatcherOrder.
Open Scope float_scope.

(** X1: the distance of a descriptor from itself is 0 when all its entries
    are finite, and NaN as soon as one of them is a NaN or an infinity. *)
Theorem calculateSignatureDistance_of_itself :
  forall d,
    calculateSignatureDistance (Some d) (Some d)
    = if allFinite d then 0 else nan.
Proof.
  intros d. unfold calculateSignatureDistance. rewrite Nat.eqb_refl.
  cbn [negb].
  pose proof (sumSquares_fold d d [] [] 0 eq_refl eq_refl) as Hfold.
  cbn [app length] in Hfold. rewrite Hfold.
  rewrite (proj2 (squares_of_self d)).
  destruct (allFinite d); reflexivity.
Qed.

(** X2: the distance does not depend on the order of its arguments,
    whatever they are (absent, of different lengths, with NaN). *)
Theorem calculateSignatureDistance_symmetric :
  forall sig1 sig2,
    calculateSignatureDistance sig1 sig2
    = calculateSignatureDistance sig2 sig1.
Proof.
  intros [a|] [b|]; try reflexivity. unfold calculateSignatureDistance.
  rewrite (Nat.eqb_sym (length b) (length a)).
  destruct (length a =? length b)%nat eqn:Hab; [|reflexivity].
  apply Nat.eqb_eq in Hab. cbn [negb]. rewrite Hab.
  f_equal. apply sumSquares_swap.
Qed.

Lemma closer_keeps_order query seen best face :
  orderedInvariant query seen best ->
  orderedInvariant query (seen ++ [face]) (closer query best face).
Proof.
  unfold orderedInvariant, closer, firstOfMinimum. intros Hinv.
  destruct (calculateSignatureDistance query (descriptor face) <? snd best)
    eqn:Hlt; cbn [fst snd].
  - split; [reflexivity|].
    exists seen, []. split; [reflexivity|]. split; [|intros g []].
    intros g Hg. destruct (fst best) as [f|].
    + destruct Hinv as (Hd & before & after & -> & Hbefore & Hafter).
      rewrite <- Hd in Hlt.
      apply in_app_or in Hg. destruct Hg as [Hg | [Hg | Hg]].
      * eapply not_at_most_smaller; [apply Hbefore, Hg|exact Hlt].
      * subst g. apply not_at_most_itself_below, Hlt.
      * eapply not_below_not_at_most; [apply Hafter, Hg|exact Hlt].
    + destruct Hinv as [Hbound Hseen]. rewrite Hbound in Hlt.
      eapply not_below_not_at_most; [apply Hseen, Hg|exact Hlt].
  - destruct (fst best) as [f|].
    + destruct Hinv as (Hd & before & after & -> & Hbefore & Hafter).
      split; [exact Hd|].
      exists before, (after ++ [face]).
      split; [rewrite <- app_assoc; reflexivity|]. split; [exact Hbefore|].
      intros g Hg. apply in_app_or in Hg. destruct Hg as [Hg | [Hg | []]].
      * apply Hafter, Hg.
      * subst g. rewrite Hd. exact Hlt.
    + destruct Hinv as [Hbound Hseen]. split; [exact Hbound|].
      intros g Hg. apply in_app_or in Hg. destruct Hg as [Hg | [Hg | []]].
      * apply Hseen, Hg.
      * subst g. rewrite <- Hbound. exact Hlt.
Qed.

Lemma pass_keeps_order query faces : forall seen best,
  orderedInvariant query seen best ->
  orderedInvariant query (seen ++ faces)
    (fold_left (closer query) faces best).
Proof.
  induction faces as [|face faces IH]; intros seen best Hinv; simpl.
  - rewrite app_nil_r. exact Hinv.
  - replace (seen ++ face :: faces) with ((seen ++ [face]) ++ faces)
      by (rewrite <- app_assoc; reflexivity).
    apply IH, closer_keeps_order, Hinv.
Qed.

(** X3: among the entries at the smallest distance, [findFaceMatch]
    returns the first in registry order: every entry before the one
    returned is strictly farther from the query (or incomparable), and no
    entry after it is strictly closer. *)
Theorem findFaceMatch_first_of_minimum :
  forall savedFaces query f,
    findFaceMatch savedFaces query = Some f ->
    firstOfMinimum query savedFaces f.
Proof.
  intros savedFaces query f. unfold findFaceMatch.
  destruct (length savedFaces =? 0)%nat; [discriminate|].
  assert (Hstart : orderedInvariant query [] (None, matchThreshold))
    by (split; [reflexivity|intros g []]).
  pose proof (pass_keeps_order query savedFaces _ _ Hstart) as Hend.
  simpl app in Hend. unfold orderedInvariant in Hend.
  intros Hres. rewrite Hres in Hend. exact (proj2 Hend).
Qed.

Lemma findFaceMatch_first_of_minimum_witness :
  findFaceMatch [twinA; twinB] (Some [0.5; 0.25]) = Some twinA /\
  firstOfMinimum (Some [0.5; 0.25]) [twinA; twinB] twinA.
Proof.
  split; [reflexivity|].
  exact (findFaceMatch_first_of_minimum [twinA; twinB] (Some [0.5; 0.25])
           twinA eq_refl).
Defined.

(** X4: a query equal to the descriptor of some entry of the registry, all
    of whose numbers are finite, always gets a match, and the match is at
    a distance not above 0. *)
Theorem findFaceMatch_recognises_enrolled :
  forall savedFaces e d,
    In e savedFaces ->
    descriptor e = Some d ->
    allFinite d = true ->
    exists g,
      findFaceMatch savedFaces (Some d) = Some g /\
      In g savedFaces /\
      (0 <? calculateSignatureDistance (Some d) (descriptor g)) = false.
Proof.
  intros savedFaces e d He Hd Hfinite.
  assert (Hzero : calculateSignatureDistance (Some d) (descriptor e) = 0)
    by (rewrite Hd; apply self_distance_finite, Hfinite).
  destruct (findFaceMatch savedFaces (Some d)) as [g|] eqn:Hres.
  - exists g. split; [reflexivity|].
    destruct (findFaceMatch_some _ _ _ Hres) as (Hin & _ & Hmin).
    split; [exact Hin|]. rewrite <- Hzero. apply Hmin, He.
  - pose proof (proj1 (findFaceMatch_none (Some d) savedFaces) Hres e He)
      as Hfar.
    cbv beta in Hfar. rewrite Hzero in Hfar. discriminate Hfar.
Qed.

Lemma findFaceMatch_recognises_enrolled_witness :
  In twinB [twinA; twinB] /\ allFinite [0.5; 0.25] = true /\
  exists g,
    findFaceMatch [twinA; twinB] (Some [0.5; 0.25]) = Some g /\
    In g [twinA; twinB] /\
    (0 <? calculateSignatureDistance (Some [0.5; 0.25]) (descriptor g))
    = false.
Proof.
  split; [right; left; reflexivity|]. split; [reflexivity|].
  exact (findFaceMatch_recognises_enrolled [twinA; twinB] twinB [0.5; 0.25]
           (or_intror (or_introl eq_refl)) eq_refl eq_refl).
Defined.

End MatcherExtras.

(** ** The motion detector, continued *)

Section MotionExtras.

Import JS MotionDetector MotionSamples Scenario.

Lemma sameByte_eq (a b : option Z) : sameByte a b = true -> a = b.
Proof.
  destruct a as [x|], b as [y|]; simpl; try discriminate; [|reflexivity].
  intros H. apply Z.eqb_eq in H. congruence.
Qed.

Lemma pixelChanged_swap (sensitivity : Z) (a b : list Z) (i : Z) :
  pixelChanged sensitivity a b i = pixelChanged sensitivity b a i.
Proof.
  assert (Hdiff : forall j, channelDiff a b j = channelDiff b a j).
  { intros j. unfold channelDiff.
    destruct (sample a j), (sample b j); try reflexivity.
    f_equal. lia. }
  unfold pixelChanged. rewrite !Hdiff. reflexivity.
Qed.

Lemma compareLoop_swap (sensitivity : Z) (a b : list Z) (dataLength : Z) :
  forall fuel i motionPixels,
    compareLoop fuel sensitivity a b dataLength i motionPixels
    = compareLoop fuel sensitivity b a dataLength i motionPixels.
Proof.
  induction fuel as [|k IH]; intros i motionPixels; [reflexivity|].
  simpl. rewrite pixelChanged_swap, IH. reflexivity.
Qed.

Lemma pixelChanged_antitone (s1 s2 : Z) (a b : list Z) (i : Z) :
  (s1 <= s2)%Z ->
  pixelChanged s2 a b i = true -> pixelChanged s1 a b i = true.
Proof.
  intros Hs.
  assert (Hex : forall d, exceeds s2 d = true -> exceeds s1 d = true).
  { intros [d|]; simpl; [|discriminate].
    intros H. apply Z.ltb_lt in H. apply Z.ltb_lt. lia. }
  unfold pixelChanged. intros H.
  apply orb_true_iff in H. destruct H as [H | H].
  - apply orb_true_iff in H. destruct H as [H | H].
    + rewrite (Hex _ H). reflexivity.
    + rewrite (Hex _ H), orb_true_r. reflexivity.
  - rewrite (Hex _ H), orb_true_r. reflexivity.
Qed.

Lemma compareLoop_antitone (s1 s2 : Z) (a b : list Z) (dataLength : Z) :
  (s1 <= s2)%Z ->
  forall fuel i m1 m2 n1 n2,
    (m2 <= m1)%Z ->
    compareLoop fuel s1 a b dataLength i m1 = Some n1 ->
    compareLoop fuel s2 a b dataLength i m2 = Some n2 ->
    (n2 <= n1)%Z.
Proof.
  intros Hs. induction fuel as [|k IH]; intros i m1 m2 n1 n2 Hm H1 H2;
    [discriminate|].
  simpl in H1, H2. destruct (i <? dataLength - 3)%Z.
  - refine (IH _ _ _ _ _ _ H1 H2).
    destruct (pixelChanged s2 a b i) eqn:Hc2.
    + rewrite (pixelChanged_antitone s1 s2 a b i Hs Hc2). lia.
    + destruct (pixelChanged s1 a b i); lia.
  - congruence.
Qed.

(** X5: raising the sensitivity setting never increases the number of
    pixels counted as moved between two frames. *)
Theorem countMotionPixels_antitone :
  forall s1 s2 currentData previousData dataLength n1 n2,
    (s1 <= s2)%Z ->
    countMotionPixels s1 currentData previousData dataLength = Some n1 ->
    countMotionPixels s2 currentData previousData dataLength = Some n2 ->
    (n2 <= n1)%Z.
Proof.
  intros s1 s2 a b len n1 n2 Hs H1 H2.
  exact (compareLoop_antitone s1 s2 a b len Hs _ _ _ _ _ _
           (Z.le_refl 0) H1 H2).
Qed.

Lemma countMotionPixels_antitone_witness :
  (5 <= 50)%Z /\
  countMotionPixels 5 (Canvas.data whiteFrame) (Canvas.data blackFrame) 64
  = Some 4%Z /\
  countMotionPixels 50 (Canvas.data whiteFrame) (Canvas.data blackFrame) 64
  = Some 4%Z /\
  (4 <= 4)%Z.
Proof.
  split; [lia|]. split; [reflexivity|]. split; [reflexivity|].
  exact (countMotionPixels_antitone 5 50 (Canvas.data whiteFrame)
           (Canvas.data blackFrame) 64 4 4 ltac:(lia) eq_refl eq_refl).
Defined.

(** X6: the verdict of a tick is the same when the current and the
    previous frame change places. *)
Theorem detectMotion_symmetric :
  forall sensitivity frame previous flag,
    option_map motionDetected
      (detectMotion sensitivity frame
         {| previousFrame := Some previous; motionDetected := flag |})
    = option_map motionDetected
        (detectMotion sensitivity previous
           {| previousFrame := Some frame; motionDetected := flag |}).
Proof.
  intros sensitivity frame previous flag. unfold detectMotion, verdict.
  cbn [previousFrame motionDetected].
  rewrite (Z.eqb_sym (Canvas.width frame)), (Z.eqb_sym (Canvas.height frame)).
  destruct ((Canvas.width previous =? Canvas.width frame)%Z
            && (Canvas.height previous =? Canvas.height frame)%Z);
    [|reflexivity].
  rewrite (Nat.eqb_sym (length (Canvas.data previous))).
  destruct (length (Canvas.data frame) =? length (Canvas.data previous))%nat;
    [|reflexivity].
  rewrite (Z.min_comm (Z.of_nat (length (Canvas.data previous)))).
  unfold countMotionPixels.
  rewrite (compareLoop_swap sensitivity (Canvas.data previous)).
  destruct (compareLoop _ _ _ _ _ _ _); reflexivity.
Qed.

(** X7: showing the same frame twice in a row always ends with the flag
    down, whatever the state before. *)
Theorem detectMotion_repeated_frame :
  forall sensitivity frame st,
    (0 <= sensitivity)%Z ->
    exists st1,
      detectMotion sensitivity frame st = Some st1 /\
      detectMotion sensitivity frame st1
      = Some {| previousFrame := Some frame; motionDetected := false |}.
Proof.
  intros sensitivity frame st Hs.
  destruct (detectMotion_total sensitivity frame st) as [st1 Hst1].
  exists st1. split; [exact Hst1|].
  unfold detectMotion in Hst1.
  destruct (verdict sensitivity frame st); [|discriminate].
  injection Hst1 as <-. apply identical_frames_no_motion, Hs.
Qed.

Lemma detectMotion_repeated_frame_witness :
  (0 <= 20)%Z /\
  exists st1,
    detectMotion 20 whiteFrame
      {| previousFrame := Some blackFrame; motionDetected := false |}
    = Some st1 /\
    detectMotion 20 whiteFrame st1
    = Some {| previousFrame := Some whiteFrame; motionDetected := false |}.
Proof.
  split; [lia|].
  exact (detectMotion_repeated_frame 20 whiteFrame
           {| previousFrame := Some blackFrame; motionDetected := false |}
           ltac:(lia)).
Defined.

(** X8: a tick that compares two frames raises the flag only if at least
    one of the pixels it samples has changed. *)
Theorem detectMotion_needs_a_changed_sample :
  forall sensitivity frame previous flag st',
    Canvas.width previous = Canvas.width frame ->
    Canvas.height previous = Canvas.height frame ->
    length (Canvas.data frame) = length (Canvas.data previous) ->
    detectMotion sensitivity frame
      {| previousFrame := Some previous; motionDetected := flag |}
    = Some st' ->
    motionDetected st' = true ->
    exists i,
      In i (sampledOffsets (fuelFor (Canvas.dataLength frame))
              (Canvas.dataLength frame) 0) /\
      pixelChanged sensitivity (Canvas.data frame) (Canvas.data previous) i
      = true.
Proof.
  intros sensitivity frame previous flag st' Hw Hh Hlen Htick Hflag.
  pose proof (detectMotion_compares sensitivity frame previous flag Hw Hh Hlen)
    as Hcompares.
  cbv zeta in Hcompares.
  remember (sampledOffsets (fuelFor (Canvas.dataLength frame))
              (Canvas.dataLength frame) 0) as offsets eqn:Hoffsets.
  rewrite Hcompares in Htick. injection Htick as Hst'.
  rewrite <- Hst' in Hflag. unfold motionDetected, changedCount in Hflag.
  destruct (filter (pixelChanged sensitivity (Canvas.data frame)
                      (Canvas.data previous)) offsets)
    as [|i rest] eqn:Hfilter.
  - change (Z.of_nat (length (@nil Z))) with 0%Z in Hflag.
    rewrite zero_never_exceeds in Hflag
      by (unfold Canvas.dataLength; lia).
    discriminate.
  - exists i. apply filter_In. rewrite Hfilter. left. reflexivity.
Qed.

Lemma detectMotion_needs_a_changed_sample_witness :
  detectMotion 20 whiteFrame
    {| previousFrame := Some blackFrame; motionDetected := false |}
  = Some {| previousFrame := Some whiteFrame; motionDetected := true |} /\
  exists i,
    In i (sampledOffsets (fuelFor (Canvas.dataLength whiteFrame))
            (Canvas.dataLength whiteFrame) 0) /\
    pixelChanged 20 (Canvas.data whiteFrame) (Canvas.data blackFrame) i = true.
Proof.
  split; [reflexivity|].
  exact (detectMotion_needs_a_changed_sample 20 whiteFrame blackFrame false
           _ eq_refl eq_refl eq_refl eq_refl eq_refl).
Defined.

Lemma pixelChanged_same_samples (sensitivity : Z) (a a' b b' : list Z) (i : Z) :
  sameByte (sample a i) (sample a' i)
  && sameByte (sample a (i + 1)) (sample a' (i + 1))
  && sameByte (sample a (i + 2)) (sample a' (i + 2)) = true ->
  sameByte (sample b i) (sample b' i)
  && sameByte (sample b (i + 1)) (sample b' (i + 1))
  && sameByte (sample b (i + 2)) (sample b' (i + 2)) = true ->
  pixelChanged sensitivity a b i = pixelChanged sensitivity a' b' i.
Proof.
  intros Ha Hb.
  apply andb_prop in Ha. destruct Ha as [Ha Ha2].
  apply andb_prop in Ha. destruct Ha as [Ha0 Ha1].
  apply andb_prop in Hb. destruct Hb as [Hb Hb2].
  apply andb_prop in Hb. destruct Hb as [Hb0 Hb1].
  apply sameByte_eq in Ha0, Ha1, Ha2, Hb0, Hb1, Hb2.
  unfold pixelChanged, channelDiff.
  rewrite Ha0, Ha1, Ha2, Hb0, Hb1, Hb2. reflexivity.
Qed.

Lemma filter_same {A : Type} (p q : A -> bool) (l : list A) :
  (forall x, In x l -> p x = q x) -> filter p l = filter q l.
Proof.
  induction l as [|x l IH]; intros H; [reflexivity|]. simpl.
  rewrite (H x (or_introl eq_refl)), IH; [reflexivity|].
  intros y Hy. apply H. right. exact Hy.
Qed.

(** X9: the verdict depends only on the red, green and blue bytes of the
    sampled pixels: frames that agree there (differing in alpha, or in any
    of the three pixels out of four that are skipped) give the same
    verdict. *)
Theorem detectMotion_reads_samples_only :
  forall sensitivity frame frame' previous previous' flag,
    Canvas.width previous = Canvas.width frame ->
    Canvas.height previous = Canvas.height frame ->
    length (Canvas.data frame) = length (Canvas.data previous) ->
    Canvas.width previous' = Canvas.width frame' ->
    Canvas.height previous' = Canvas.height frame' ->
    length (Canvas.data frame') = length (Canvas.data previous') ->
    length (Canvas.data frame) = length (Canvas.data frame') ->
    sameSamples (Canvas.data frame) (Canvas.data frame')
      (Canvas.dataLength frame) = true ->
    sameSamples (Canvas.data previous) (Canvas.data previous')
      (Canvas.dataLength frame) = true ->
    option_map motionDetected
      (detectMotion sensitivity frame
         {| previousFrame := Some previous; motionDetected := flag |})
    = option_map motionDetected
        (detectMotion sensitivity frame'
           {| previousFrame := Some previous'; motionDetected := flag |}).
Proof.
  intros sensitivity frame frame' previous previous' flag
    Hw Hh Hlen Hw' Hh' Hlen' Hsame Hcur Hprev.
  rewrite (detectMotion_compares sensitivity frame previous flag Hw Hh Hlen).
  rewrite (detectMotion_compares sensitivity frame' previous' flag
             Hw' Hh' Hlen').
  assert (Hlength : Canvas.dataLength frame' = Canvas.dataLength frame)
    by (unfold Canvas.dataLength; rewrite Hsame; reflexivity).
  rewrite Hlength.
  assert (Hcount :
    changedCount sensitivity (Canvas.data frame) (Canvas.data previous)
      (sampledOffsets (fuelFor (Canvas.dataLength frame))
         (Canvas.dataLength frame) 0)
    = changedCount sensitivity (Canvas.data frame') (Canvas.data previous')
        (sampledOffsets (fuelFor (Canvas.dataLength frame))
           (Canvas.dataLength frame) 0)).
  { unfold changedCount. f_equal. f_equal.
    unfold sameSamples in Hcur, Hprev. rewrite forallb_forall in Hcur, Hprev.
    apply filter_same. intros i Hi.
    apply pixelChanged_same_samples; [apply Hcur, Hi|apply Hprev, Hi]. }
  rewrite Hcount. reflexivity.
Qed.

Lemma detectMotion_reads_samples_only_witness :
  sameSamples (Canvas.data speckFrame) (Canvas.data blackFrame)
    (Canvas.dataLength speckFrame) = true /\
  option_map motionDetected
    (detectMotion 20 speckFrame
       {| previousFrame := Some blackFrame; motionDetected := false |})
  = option_map motionDetected
      (detectMotion 20 blackFrame
         {| previousFrame := Some blackFrame; motionDetected := false |}).
Proof.
  split; [reflexivity|].
  exact (detectMotion_reads_samples_only 20 speckFrame blackFrame
           blackFrame blackFrame false
           eq_refl eq_refl eq_refl eq_refl eq_refl eq_refl eq_refl
           eq_refl eq_refl).
Defined.

End MotionExtras.

(** ** The registry, continued *)

Section RegistryFacts.

Import FaceApi Visitors.

Lemma filter_twice {A : Type} (p : A -> bool) (l : list A) :
  filter p (filter p l) = filter p l.
Proof.
  induction l as [|x l IH]; [reflexivity|]. simpl.
  destruct (p x) eqn:Hx; simpl; [rewrite Hx, IH; reflexivity|exact IH].
Qed.

Lemma filter_all {A : Type} (p : A -> bool) (l : list A) :
  (forall x, In x l -> p x = true) -> filter p l = l.
Proof.
  induction l as [|x l IH]; intros H; [reflexivity|]. simpl.
  rewrite (H x (or_introl eq_refl)), IH; [reflexivity|].
  intros y Hy. apply H. right. exact Hy.
Qed.

Lemma numberToJson_twice (x : float) :
  toJson (numberToJson x) = numberToJson x.
Proof.
  unfold numberToJson.
  destruct (is_nan x || is_infinity x) eqn:Hodd; [reflexivity|].
  destruct (PrimFloat.Leibniz.eqb x neg_zero) eqn:Hzero; [reflexivity|].
  simpl. unfold numberToJson. rewrite Hodd, Hzero. reflexivity.
Qed.

(** Writing a value that has been written and read once changes nothing
    more. *)
Lemma toJson_twice : forall v, toJson (toJson v) = toJson v.
Proof.
  fix IH 1. intros [ |b|x|s|items|fields]; try reflexivity.
  - apply numberToJson_twice.
  - simpl. f_equal. induction items as [|item items IHitems];
      [reflexivity|].
    simpl. rewrite (IH item), IHitems. reflexivity.
  - simpl. f_equal. induction fields as [|[k v] fields IHfields];
      [reflexivity|].
    simpl. rewrite (IH v), IHfields. reflexivity.
Qed.

Lemma map_toJson_twice (faces : list value) :
  map toJson (map toJson faces) = map toJson faces.
Proof.
  induction faces as [|face faces IH]; [reflexivity|]. simpl.
  rewrite toJson_twice, IH. reflexivity.
Qed.

Lemma dropWhiteSpace_clean (l : list ascii) : clean (dropWhiteSpace l).
Proof.
  induction l as [|c l IH]; [exact I|]. simpl.
  destruct (isWhiteSpace c) eqn:Hc; [exact IH|exact Hc].
Qed.

Lemma dropWhiteSpace_of_clean (l : list ascii) :
  clean l -> dropWhiteSpace l = l.
Proof. destruct l as [|c l]; simpl; [reflexivity|]. intros ->. reflexivity. Qed.

Lemma dropWhiteSpace_keeps_last (p : list ascii) (c : ascii) :
  isWhiteSpace c = false -> exists q, dropWhiteSpace (p ++ [c]) = q ++ [c].
Proof.
  intros Hc. induction p as [|d p [q Hq]]; simpl.
  - rewrite Hc. exists []. reflexivity.
  - destruct (isWhiteSpace d); [exists q; exact Hq|].
    exists (d :: p). reflexivity.
Qed.

Lemma trimmed_end_clean (m : list ascii) :
  clean m -> clean (rev (dropWhiteSpace (rev m))).
Proof.
  destruct m as [|c m]; [intros _; exact I|]. simpl. intros Hc.
  destruct (dropWhiteSpace_keeps_last (rev m) c Hc) as [q ->].
  rewrite rev_app_distr. simpl. exact Hc.
Qed.

(** Trimming a trimmed string changes nothing. *)
Lemma trim_twice (s : string) : trim (trim s) = trim s.
Proof.
  unfold trim. rewrite list_ascii_of_string_of_list_ascii. f_equal.
  set (m := dropWhiteSpace (list_ascii_of_string s)).
  rewrite (dropWhiteSpace_of_clean (rev (dropWhiteSpace (rev m))))
    by apply trimmed_end_clean, dropWhiteSpace_clean.
  rewrite rev_involutive.
  rewrite (dropWhiteSpace_of_clean (dropWhiteSpace (rev m)))
    by apply dropWhiteSpace_clean.
  reflexivity.
Qed.

End RegistryFacts.

Section RegistryExtras.

Import FaceApi Runs Visitors Scenario.

Lemma removeFace_record (id : string) (st : State) :
  removeFace id st
  = {| savedFaces := filter (fun face => negb (hasId id face)) (savedFaces st);
       faceName := faceName st;
       faceDetected := faceDetected st;
       matchedFace := match matchedFace st with
                      | Some m => if hasId id m then None else Some m
                      | None => None
                      end;
       error := error st |}.
Proof.
  unfold removeFace. destruct (matchedFace st) as [m|] eqn:Hm.
  - destruct (hasId id m); unfold setMatchedFace, setSavedFaces; simpl;
      rewrite ?Hm; reflexivity.
  - unfold setSavedFaces. rewrite Hm. reflexivity.
Qed.

(** X10: [removeFace] drops every entry whose id is the given string (all
    of them when several carry it), keeps the others in order, clears the
    reported match exactly when it carries that id, changes nothing when no
    entry carries the id, and has no further effect when repeated. *)
Theorem removeFace_removes_all_with_id :
  forall id st,
    savedFaces (removeFace id st)
    = filter (fun face => negb (hasId id face)) (savedFaces st)
    /\ (forall face,
          In face (savedFaces (removeFace id st)) <->
          In face (savedFaces st) /\ hasId id face = false)
    /\ matchedFace (removeFace id st)
       = match matchedFace st with
         | Some m => if hasId id m then None else Some m
         | None => None
         end
    /\ ((forall face, In face (savedFaces st) -> hasId id face = false) ->
        savedFaces (removeFace id st) = savedFaces st)
    /\ removeFace id (removeFace id st) = removeFace id st.
Proof.
  intros id st.
  assert (Hsaved := savedFaces_removeFace id st).
  split; [exact Hsaved|]. split; [|split; [|split]].
  - intros face. rewrite Hsaved, filter_In, negb_true_iff. tauto.
  - unfold removeFace. destruct (matchedFace st) as [m|] eqn:Hm;
      [|exact Hm].
    destruct (hasId id m); [reflexivity|exact Hm].
  - intros Hnone. rewrite Hsaved. apply filter_all.
    intros face Hface. rewrite (Hnone face Hface). reflexivity.
  - rewrite (removeFace_record id (removeFace id st)).
    rewrite (removeFace_record id st). simpl. rewrite filter_twice.
    f_equal. destruct (matchedFace st) as [m|]; [|reflexivity].
    destruct (hasId id m) eqn:Hid; [reflexivity|]. rewrite Hid. reflexivity.
Qed.

(** X11: saving a face and removing it at once by its id gives back the
    registry there was before, provided no entry already carried that id
    (otherwise those entries go too). *)
Theorem saveFace_then_removeFace :
  forall env st,
    (forall face, In face (savedFaces st) ->
                  hasId (toString (now env)) face = false) ->
    savedFaces (removeFace (toString (now env)) (saveFace env st))
    = savedFaces st.
Proof.
  intros env st Hfresh. rewrite savedFaces_removeFace.
  destruct (savedFaces_saveFace env st) as [-> | (n & d & v & ->)].
  - apply filter_all. intros face Hface. rewrite (Hfresh face Hface).
    reflexivity.
  - rewrite filter_app. simpl.
    unfold hasId at 2. simpl. rewrite String.eqb_refl. simpl.
    rewrite app_nil_r. apply filter_all.
    intros face Hface. rewrite (Hfresh face Hface). reflexivity.
Qed.

Lemma saveFace_then_removeFace_witness :
  (forall face, In face (savedFaces beaReady) ->
                hasId (toString (now beaSurroundings)) face = false) /\
  savedFaces (saveFace beaSurroundings beaReady)
  = [annFace; newFace "1700000000001" "Bea" "11/14/2023, 10:13:21 PM"
                [0.125; 0.75]%float] /\
  savedFaces (removeFace (toString (now beaSurroundings))
                (saveFace beaSurroundings beaReady))
  = [annFace].
Proof.
  assert (Hfresh : forall face, In face (savedFaces beaReady) ->
                     hasId (toString (now beaSurroundings)) face = false).
  { intros face [<- | []]. reflexivity. }
  split; [exact Hfresh|]. split; [reflexivity|].
  exact (saveFace_then_removeFace beaSurroundings beaReady Hfresh).
Defined.

(** X12: importing the registry's own export appends a copy of every entry
    (as JSON renders it) after the entries already there; nothing is
    recognised as a duplicate. *)
Theorem importFaces_of_own_export :
  forall st,
    savedFaces (importFaces (exportFaces st) st)
    = savedFaces st ++ map toJson (savedFaces st).
Proof.
  intros st. unfold exportFaces.
  destruct (savedFaces st) as [|face faces] eqn:Hfaces.
  - simpl. rewrite Hfaces. reflexivity.
  - change (length (face :: faces) =? 0)%nat with false. cbv iota.
    simpl. rewrite Hfaces. reflexivity.
Qed.

(** X13: a registry that has been exported and imported once is left
    unchanged by further round trips, and exports to the same file as the
    original registry did. *)
Theorem exportFaces_stable_after_roundTrip :
  forall faces,
    roundTrip (roundTrip faces) = roundTrip faces
    /\ exportFaces (setSavedFaces (roundTrip faces) initial)
       = exportFaces (setSavedFaces faces initial).
Proof.
  intros faces. rewrite !roundTrip_is_toJson, map_toJson_twice.
  split; [reflexivity|].
  unfold exportFaces, JSON_stringify. simpl savedFaces.
  rewrite length_map. destruct (length faces =? 0)%nat; [reflexivity|].
  simpl. rewrite map_toJson_twice. reflexivity.
Qed.

(** X14: whenever [saveFace] adds an entry, its name is not empty and
    carries no white space at either end (trimming it changes nothing),
    whatever was typed. *)
Theorem saveFace_stores_trimmed_names :
  forall env st,
    savedFaces (saveFace env st) = savedFaces st \/
    exists name savedAt descriptor,
      savedFaces (saveFace env st)
      = savedFaces st
        ++ [newFace (toString (now env)) name savedAt descriptor] /\
      name <> ""%string /\ trim name = name.
Proof.
  intros env st. unfold saveFace.
  destruct (negb (faceDetected st)) eqn:Hd; [left; reflexivity|].
  destruct (trim (faceName st) =? "")%string eqn:Hn; [left; reflexivity|].
  destruct (negb (videoMounted env)); [left; reflexivity|].
  cbn [orb].
  destruct (detections env) as [[|d rest]|];
    [left; reflexivity| |left; reflexivity].
  right. exists (trim (faceName st)), (localeString env), d.
  split; [reflexivity|]. split.
  - apply String.eqb_neq, Hn.
  - apply trim_twice.
Qed.

Lemma ids_of_unchanged_or_older (t u : Z) (faces : list value) :
  (t <= u)%Z -> idsUpTo t faces -> idsUpTo u faces.
Proof.
  intros Htu Hids i Hi. destruct (Hids i Hi) as (v & Hv & ->).
  exists v. split; [lia|reflexivity].
Qed.

Lemma step_keeps_ids (t : Z) (op : Op) (st : State) :
  uniqueIds (savedFaces st) -> idsUpTo t (savedFaces st) ->
  match op with
  | OpSave env =>
      (t < now env)%Z ->
      uniqueIds (savedFaces (step st op)) /\
      idsUpTo (now env) (savedFaces (step st op))
  | _ =>
      uniqueIds (savedFaces (step st op)) /\
      idsUpTo t (savedFaces (step st op))
  end.
Proof.
  intros Hunique Hids. destruct op as [b|n|env|id]; simpl.
  - split; assumption.
  - split; assumption.
  - intros Hlater.
    destruct (savedFaces_saveFace env st) as [-> | (n & d & v & ->)].
    + split; [exact Hunique|].
      apply (ids_of_unchanged_or_older t); [lia|exact Hids].
    + unfold uniqueIds, idsUpTo in *. rewrite idsOf_app, idsOf_newFace.
      split.
      * apply NoDup_app; [exact Hunique|repeat constructor; intros []|].
        intros i Hi [<- | []].
        destruct (Hids _ Hi) as (u & Hu & Heq).
        injection Heq as Heq. apply toString_inj in Heq. lia.
      * intros i Hi. apply in_app_or in Hi. destruct Hi as [Hi | [<- | []]].
        -- destruct (Hids i Hi) as (u & Hu & ->). exists u.
           split; [lia|reflexivity].
        -- exists (now env). split; [lia|reflexivity].
  - rewrite savedFaces_removeFace. split.
    + apply uniqueIds_filter, Hunique.
    + intros i Hi. apply Hids. eapply idsOf_filter_incl, Hi.
Qed.

Lemma run_keeps_ids (ops : list Op) : forall t st,
  uniqueIds (savedFaces st) -> idsUpTo t (savedFaces st) ->
  clockAdvances t ops ->
  uniqueIds (savedFaces (run ops st)).
Proof.
  unfold run. induction ops as [|op ops IH]; intros t st Hunique Hids Hclock;
    [exact Hunique|].
  simpl fold_left. pose proof (step_keeps_ids t op st Hunique Hids) as Hstep.
  destruct op as [b|n|env|id]; simpl in Hclock.
  - destruct Hstep as [Hu Hi]. exact (IH t _ Hu Hi Hclock).
  - destruct Hstep as [Hu Hi]. exact (IH t _ Hu Hi Hclock).
  - destruct Hclock as [Hlater Hrest].
    destruct (Hstep Hlater) as [Hu Hi]. exact (IH (now env) _ Hu Hi Hrest).
  - destruct Hstep as [Hu Hi]. exact (IH t _ Hu Hi Hclock).
Qed.

(** X15: as long as nothing is imported and the clock has advanced between
    any two enrolments, no two entries of the registry share an id. *)
Theorem ids_unique_without_import :
  forall ops t,
    clockAdvances t ops ->
    uniqueIds (savedFaces (run ops initial)).
Proof.
  intros ops t Hclock.
  apply (run_keeps_ids ops t initial); [constructor|intros i []|exact Hclock].
Qed.

Lemma ids_unique_without_import_witness :
  clockAdvances 0 annAndBea /\
  savedFaces (run annAndBea initial)
  = [newFace "1700000000001" "Bea" "11/14/2023, 10:13:21 PM"
       [0.125; 0.75]%float] /\
  uniqueIds (savedFaces (run annAndBea initial)).
Proof.
  assert (Hclock : clockAdvances 0 annAndBea)
    by (simpl; repeat split; lia).
  split; [exact Hclock|]. split; [reflexivity|].
  exact (ids_unique_without_import annAndBea 0 Hclock).
Defined.

End RegistryExtras.

(** ** Descriptors sampled from the canvas *)

Section SignFacts.

Import JS NumberShape.
Open Scope float_scope.

Lemma round_sign_plus (m e : Z) (l : location) :
  signPlus (binary_round_aux prec emax false m e l).
Proof.
  unfold binary_round_aux.
  destruct (shr_fexp prec emax m e l) as [mrs1 e1].
  destruct (shr_fexp prec emax _ e1 loc_Exact) as [mrs2 e2].
  destruct (shr_m mrs2); simpl; auto.
  match goal with |- signPlus (if ?c then _ else _) => destruct c end;
    reflexivity.
Qed.

Lemma of_Z_sign_plus (z : Z) : (0 <= z)%Z -> signPlus (Prim2SF (of_Z z)).
Proof.
  intros Hz. destruct z as [|p|p]; [reflexivity| |lia].
  unfold of_Z. rewrite of_uint63_spec.
  pose proof (Uint63.to_Z_bounded (Uint63.of_Z (Z.pos p))) as [Hlo _].
  destruct (Uint63.to_Z (Uint63.of_Z (Z.pos p))) as [|q|q];
    [reflexivity| |lia].
  unfold binary_normalize, binary_round.
  destruct (shl_align q 0 _) as [mz ez]. apply round_sign_plus.
Qed.

Lemma mul_sign_plus (a : spec_float) (m : positive) (e : Z) :
  signPlus a -> signPlus (SF64mul a (S754_finite false m e)).
Proof.
  unfold SF64mul, SFmul.
  destruct a as [s|s| |s ma ea]; simpl; auto; intros ->; simpl; auto.
  apply round_sign_plus.
Qed.

Lemma div_sign_plus (a : spec_float) (m : positive) (e : Z) :
  signPlus a -> signPlus (SF64div a (S754_finite false m e)).
Proof.
  unfold SF64div, SFdiv.
  destruct a as [s|s| |s ma ea]; simpl; auto; intros ->; simpl; auto.
  destruct (SFdiv_core_binary prec emax (Z.pos ma) ea (Z.pos m) e)
    as [[mz ez] lz].
  apply round_sign_plus.
Qed.

Lemma add_sign_plus (a b : spec_float) :
  signPlus a -> signPlus b -> signPlus (SF64add a b).
Proof.
  unfold SF64add, SFadd.
  destruct a as [sa|sa| |sa ma ea]; destruct b as [sb|sb| |sb mb eb];
    simpl; auto; intros -> ->; simpl; auto.
  unfold binary_normalize.
  destruct (shl_align ma ea (Z.min ea eb)) as [ma' ea'].
  destruct (shl_align mb eb (Z.min ea eb)) as [mb' eb'].
  simpl. unfold binary_round.
  destruct (shl_align _ _ _) as [mz ez]. apply round_sign_plus.
Qed.

(** A weighted colour is not minus zero. *)
Lemma weighted_sign_plus (r g b : Z) :
  (0 <= r)%Z -> (0 <= g)%Z -> (0 <= b)%Z ->
  signPlus (Prim2SF (TensorflowDemo.weighted (of_Z r) (of_Z g) (of_Z b))).
Proof.
  intros Hr Hg Hb. unfold TensorflowDemo.weighted.
  rewrite div_spec, !add_spec, !mul_spec.
  apply div_sign_plus. apply add_sign_plus; [apply add_sign_plus|].
  - apply mul_sign_plus, of_Z_sign_plus, Hr.
  - apply mul_sign_plus, of_Z_sign_plus, Hg.
  - apply mul_sign_plus, of_Z_sign_plus, Hb.
Qed.

(** A Number of the unit interval that is not minus zero is written to
    JSON and read back as itself. *)
Lemma exact_of_unit (x : float) :
  TensorflowDemo.inUnit x = true -> signPlus (Prim2SF x) ->
  FaceApi.exactNumber x = true.
Proof.
  unfold TensorflowDemo.inUnit, FaceApi.exactNumber. intros Hunit Hsign.
  apply andb_prop in Hunit. destruct Hunit as [Hlow Hhigh].
  apply andb_true_intro. split.
  - apply negb_true_iff, orb_false_intro.
    + unfold is_nan. rewrite leb_spec in Hlow. rewrite eqb_spec.
      change (Prim2SF 0) with (S754_zero false) in Hlow.
      destruct (Prim2SF x) as [s|s| |s m e]; try destruct s;
        try discriminate Hlow; try reflexivity;
        simpl; unfold SFeqb, SFcompare; rewrite ?Z.compare_refl,
          ?Pos.compare_refl; reflexivity.
    + unfold is_infinity. rewrite eqb_spec, abs_spec.
      rewrite leb_spec in Hlow, Hhigh.
      change (Prim2SF infinity) with (S754_infinity false).
      change (Prim2SF 0) with (S754_zero false) in Hlow.
      change (Prim2SF 1) with (S754_finite false 4503599627370496 (-52))
        in Hhigh.
      destruct (Prim2SF x) as [s|s| |s m e]; try destruct s;
        try discriminate Hlow; try discriminate Hhigh; reflexivity.
  - apply negb_true_iff.
    destruct (PrimFloat.Leibniz.eqb x neg_zero) eqn:Hzero; [|reflexivity].
    apply FloatAxioms.Leibniz.eqb_spec in Hzero. subst x.
    discriminate Hsign.
Qed.

End SignFacts.

Section SampledDescriptors.

Import JS FaceApi TensorflowRegistry NumberShape Studio.

Lemma signatureEntry_exact (img : Canvas.ImageData)
    (r : TensorflowDemo.FaceRect) (i : Z) :
  Canvas.wellFormed img ->
  exactNumber (TensorflowDemo.signatureEntry img r i) = true.
Proof.
  intros (Hw & Hh & Hlen & Hbytes).
  unfold TensorflowDemo.signatureEntry, TensorflowDemo.sampleEntry.
  destruct (TensorflowDemo.samplePoint r i) as [[px py]|]; [|reflexivity].
  cbv zeta.
  set (k := ((py * Canvas.width img + px) * 4)%Z).
  destruct ((0 <=? k)%Z && (k <? Canvas.dataLength img)%Z) eqn:Hin;
    [|reflexivity].
  apply andb_prop in Hin. destruct Hin as [H0 Hk].
  apply Z.leb_le in H0. apply Z.ltb_lt in Hk.
  assert (Hk2 : (k + 2 < Canvas.dataLength img)%Z) by (subst k; lia).
  unfold Canvas.dataLength in *.
  destruct (byteAt_sample (Canvas.data img) k) as (R & _ & HR & ->);
    [lia|exact Hbytes|].
  destruct (byteAt_sample (Canvas.data img) (k + 1)) as (G & _ & HG & ->);
    [lia|exact Hbytes|].
  destruct (byteAt_sample (Canvas.data img) (k + 2)) as (B & _ & HB & ->);
    [lia|exact Hbytes|].
  apply exact_of_unit.
  - apply weighted_in_unit; assumption.
  - apply weighted_sign_plus; lia.
Qed.

Lemma generateFaceSignature_exact (img : Canvas.ImageData)
    (r : TensorflowDemo.FaceRect) :
  Canvas.wellFormed img ->
  forallb exactNumber (TensorflowDemo.generateFaceSignature img r) = true.
Proof.
  intros Hwf. apply forallb_forall. intros c Hc.
  unfold TensorflowDemo.generateFaceSignature in Hc.
  apply in_map_iff in Hc. destruct Hc as (i & <- & _).
  apply signatureEntry_exact, Hwf.
Qed.

Lemma newFace_exact (id name savedAt : string) (descriptor : list float) :
  forallb exactNumber descriptor = true ->
  jsonExact (newFace id name savedAt descriptor) = true.
Proof.
  intros Hd. unfold newFace. simpl. rewrite andb_true_r.
  rewrite forallb_forall in Hd. apply forallb_forall.
  intros v Hv. apply in_map_iff in Hv. destruct Hv as (x & <- & Hx).
  exact (Hd x Hx).
Qed.

Lemma filter_keeps_forallb {A : Type} (p q : A -> bool) (l : list A) :
  forallb p l = true -> forallb p (filter q l) = true.
Proof.
  rewrite !forallb_forall. intros H x Hx. apply filter_In in Hx.
  apply H, Hx.
Qed.

Lemma enrolledOnly_exact (st : State) :
  enrolledOnly st -> forallb jsonExact (savedFaces st) = true.
Proof.
  induction 1 as [|b st _ IH|n st _ IH|env st Hsound _ IH|id st _ IH].
  - reflexivity.
  - exact IH.
  - exact IH.
  - unfold saveFace.
    destruct (negb (faceDetected st) || (trim (faceName st) =? "")%string
              || negb (videoMounted env) || negb (canvasMounted env));
      [exact IH|].
    unfold canvasSound in Hsound.
    destruct (canvasFrame env) as [img|]; [|exact IH].
    cbn [savedFaces setFaceName setSavedFaces].
    rewrite forallb_app, IH. cbn [forallb andb]. rewrite andb_true_r.
    apply newFace_exact, generateFaceSignature_exact, Hsound.
  - rewrite savedFaces_removeFace. apply filter_keeps_forallb, IH.
Qed.

(** X16: in the colour-heuristic demo, a registry built by enrolling and
    removing faces only (nothing imported) survives the export and a
    re-import into a fresh component exactly: same entries, same order,
    every descriptor component bit for bit. *)
Theorem roundTrip_of_enrolled_registry :
  forall st, enrolledOnly st -> roundTrip (savedFaces st) = savedFaces st.
Proof.
  intros st Hst. rewrite roundTrip_is_toJson.
  apply map_toJson_exact, enrolledOnly_exact, Hst.
Qed.

Lemma roundTrip_of_enrolled_registry_witness :
  enrolledOnly (saveFace annCanvas Scenario.annReady) /\
  length (savedFaces (saveFace annCanvas Scenario.annReady)) = 1%nat /\
  roundTrip (savedFaces (saveFace annCanvas Scenario.annReady))
  = savedFaces (saveFace annCanvas Scenario.annReady).
Proof.
  assert (Hreach : enrolledOnly (saveFace annCanvas Scenario.annReady)).
  { apply only_save.
    - unfold canvasSound, Canvas.wellFormed. simpl.
      repeat split; try lia; repeat constructor; lia.
    - apply (only_detect true (setFaceName " Ann " initial)).
      apply only_type, only_initial. }
  split; [exact Hreach|]. split; [reflexivity|].
  exact (roundTrip_of_enrolled_registry _ Hreach).
Defined.

End SampledDescriptors.

(** ** Sample points that are not pixels *)

Section OffGrid.

Import JS TensorflowDemo Studio.
Open Scope float_scope.

Lemma plus_nan (x : float) : x + nan = nan.
Proof.
  apply Prim2SF_inj. rewrite add_spec. change (Prim2SF nan) with S754_nan.
  destruct (Prim2SF x) as [s|s| |s m e]; reflexivity.
Qed.

Lemma nan_div (y : float) : nan / y = nan.
Proof. apply Prim2SF_inj. rewrite div_spec. reflexivity. Qed.

Lemma nan_minus (y : float) : nan - y = nan.
Proof. apply Prim2SF_inj. rewrite sub_spec. reflexivity. Qed.

Lemma nan_not_below (y : float) : (nan <? y) = false.
Proof. rewrite ltb_spec. reflexivity. Qed.

Lemma addPixel_keeps_nan get len canvasWidth yy xx t :
  rTotal t = nan -> rTotal (addPixel get len canvasWidth yy xx t) = nan.
Proof.
  intros Ht. unfold addPixel.
  destruct (geb _ 0 && (_ <? len)); [|exact Ht].
  cbn [rTotal]. rewrite Ht. apply nan_plus.
Qed.

Lemma columns_keep_nan get len canvasWidth r yy :
  forall fuel xx t t',
    rTotal t = nan ->
    columns fuel get len canvasWidth r yy xx t = Some t' ->
    rTotal t' = nan.
Proof.
  induction fuel as [|k IH]; intros xx t t' Ht Hrun; [discriminate|].
  simpl in Hrun. destruct (xx <? x r + width r).
  - apply (IH _ _ _ (addPixel_keeps_nan get len canvasWidth yy xx t Ht) Hrun).
  - injection Hrun as <-. exact Ht.
Qed.

Lemma rows_keep_nan get len canvasWidth r inner :
  forall fuel yy t t',
    rTotal t = nan ->
    rows fuel inner get len canvasWidth r yy t = Some t' ->
    rTotal t' = nan.
Proof.
  induction fuel as [|k IH]; intros yy t t' Ht Hrun; [discriminate|].
  simpl in Hrun. destruct (yy <? y r + height r).
  - destruct (columns inner get len canvasWidth r yy (x r) t) as [t1|] eqn:Hc;
      [|discriminate].
    apply (IH _ _ _ (columns_keep_nan _ _ _ _ _ _ _ _ _ Ht Hc) Hrun).
  - injection Hrun as <-. exact Ht.
Qed.

Lemma off_grid_total (fuel : nat) (img : Canvas.ImageData) (t : Totals) :
  startsOffGrid img = true ->
  rows fuel fuel (typedGet (Canvas.data img)) (of_Z (Canvas.dataLength img))
    (Canvas.width img)
    (centeredRect (Canvas.width img) (Canvas.height img))
    (y (centeredRect (Canvas.width img) (Canvas.height img))) noTotals
  = Some t ->
  rTotal t = nan.
Proof.
  unfold startsOffGrid, firstIndex. cbv zeta.
  set (r := centeredRect (Canvas.width img) (Canvas.height img)).
  intros Hstart Hrun.
  apply andb_prop in Hstart. destruct Hstart as [Hstart Hoff].
  apply andb_prop in Hstart. destruct Hstart as [Hstart Hlen].
  apply andb_prop in Hstart. destruct Hstart as [Hstart Hpos].
  apply andb_prop in Hstart. destruct Hstart as [Hrow Hcol].
  destruct fuel as [|k]; [discriminate|].
  cbn [rows] in Hrun. rewrite Hrow in Hrun.
  cbn [columns] in Hrun. rewrite Hcol in Hrun.
  destruct (columns k _ _ _ r (y r) (x r + 10) _) as [t1|] eqn:Hc;
    [|discriminate].
  assert (Hfirst :
    rTotal (addPixel (typedGet (Canvas.data img))
              (of_Z (Canvas.dataLength img)) (Canvas.width img) (y r) (x r)
              noTotals) = nan).
  { unfold addPixel. rewrite Hpos, Hlen. cbn [andb rTotal noTotals].
    unfold typedGet.
    destruct (to_index ((y r * of_Z (Canvas.width img) + x r) * 4));
      [discriminate|].
    apply plus_nan. }
  pose proof (columns_keep_nan _ _ _ _ _ _ _ _ _ Hfirst Hc) as Hrow1.
  exact (rows_keep_nan _ _ _ _ _ _ _ _ _ Hrow1 Hrun).
Qed.

(** X17: [detectFaces] does not floor its sample coordinates.  When the
    first index its loops compute lies in the buffer but is not an integer
    (the centred square of a 10x10 frame has such corners), the read there
    is [undefined], the sums are NaN from then on, and a pass that finishes
    reports no face and no descriptor, whatever the picture shows. *)
Theorem detectFaces_off_grid_finds_no_face :
  forall fuel img d,
    startsOffGrid img = true ->
    detectFaces fuel img = Some d ->
    isFaceDetected d = false /\ faceSignature d = None /\
    colorVariance d = nan.
Proof.
  intros fuel img d Hstart Hrun. unfold detectFaces, analyse in Hrun.
  cbv zeta in Hrun.
  destruct (rows fuel fuel _ _ _ _ _ noTotals) as [t|] eqn:Hrows;
    [|discriminate].
  apply (off_grid_total fuel img t Hstart) in Hrows.
  rewrite Hrows in Hrun. rewrite !nan_div, !nan_minus in Hrun.
  change (abs nan) with nan in Hrun. rewrite !nan_plus in Hrun.
  rewrite nan_not_below in Hrun. cbn [andb] in Hrun.
  injection Hrun as <-. repeat split.
Qed.

Lemma detectFaces_off_grid_finds_no_face_witness :
  startsOffGrid grayTen = true /\
  exists d, detectFaces 5 grayTen = Some d /\
            isFaceDetected d = false /\ faceSignature d = None /\
            colorVariance d = nan.
Proof.
  assert (Hstart : startsOffGrid grayTen = true) by (vm_compute; reflexivity).
  split; [exact Hstart|].
  destruct (detectFaces 5 grayTen) as [d|] eqn:Hrun.
  - exists d. split; [reflexivity|].
    exact (detectFaces_off_grid_finds_no_face 5 grayTen d Hstart Hrun).
  - exfalso. vm_compute in Hrun. discriminate Hrun.
Defined.

End OffGrid.

(** ** Stopping and starting again *)

Section StopExtras.

Import MotionDetector.

(** X18: [stopWebcam] clears the flag but not the kept frame.  The first
    tick after a stop always finishes and keeps its frame; it reports the
    outcome of comparing with the frame kept from before the stop when
    that frame has the same dimensions and length, and false otherwise. *)
Theorem detectMotion_after_stopWebcam :
  forall sensitivity frame st,
    exists st',
      detectMotion sensitivity frame (stopWebcam st) = Some st' /\
      previousFrame st' = Some frame /\
      motionDetected st'
      = match verdict sensitivity frame st with
        | Some (Some flag) => flag
        | _ => false
        end.
Proof.
  intros sensitivity frame st.
  destruct (detectMotion_total sensitivity frame (stopWebcam st))
    as [st' Hrun].
  exists st'. split; [exact Hrun|].
  unfold detectMotion in Hrun.
  change (verdict sensitivity frame (stopWebcam st))
    with (verdict sensitivity frame st) in Hrun.
  destruct (verdict sensitivity frame st) as [[flag|]|]; [| |discriminate];
    injection Hrun as <-; split; reflexivity.
Qed.

End StopExtras.

(** ** The simulated component *)

Section SimulatedExtras.

Import FaceApi (value, newFace, hasId, trim, toString).
Import Simulated.

Lemma randomDescriptor_length (env : Enrolment) :
  length (randomDescriptor env) = 128%nat.
Proof. unfold randomDescriptor. rewrite length_map, length_seq. reflexivity. Qed.

(** X19: in the simulated component, removing a face takes it out of the
    list of saved faces only.  Enrolling a face and removing it at once
    gives back the list of saved faces there was (when no entry carried
    the new id), but the 128-number descriptor drawn for it stays in
    [faceDescriptors], and so does the reported match. *)
Theorem simulated_removeFace_keeps_descriptor :
  forall env st,
    faceDetected st = true ->
    trim (faceName st) <> ""%string ->
    (forall face, In face (savedFaces st) ->
                  hasId (toString (now env)) face = false) ->
    let st' := removeFace (toString (now env)) (saveFace env st) in
    savedFaces st' = savedFaces st
    /\ faceDescriptors st' = faceDescriptors st ++ [randomDescriptor env]
    /\ length (randomDescriptor env) = 128%nat
    /\ matchedFace st' = matchedFace st.
Proof.
  intros env st Hdetected Hname Hfresh. cbv zeta.
  apply String.eqb_neq in Hname.
  unfold saveFace. rewrite Hdetected, Hname. cbn [negb orb].
  unfold removeFace. cbn [savedFaces faceDescriptors matchedFace].
  split; [|split; [reflexivity|split; [apply randomDescriptor_length|
                                       reflexivity]]].
  rewrite filter_app. cbn [filter].
  unfold hasId at 2. simpl. rewrite String.eqb_refl. cbn [negb].
  rewrite app_nil_r. apply filter_all.
  intros face Hface. rewrite (Hfresh face Hface). reflexivity.
Qed.

Lemma simulated_removeFace_keeps_descriptor_witness :
  savedFaces (removeFace (toString (now carlEnrolment))
                (saveFace carlEnrolment carlReady)) = [] /\
  length (faceDescriptors
            (removeFace (toString (now carlEnrolment))
               (saveFace carlEnrolment carlReady))) = 1%nat.
Proof.
  assert (Hname : trim (faceName carlReady) <> ""%string) by discriminate.
  assert (Hfresh : forall face, In face (savedFaces carlReady) ->
                     hasId (toString (now carlEnrolment)) face = false)
    by (intros face []).
  destruct (simulated_removeFace_keeps_descriptor carlEnrolment carlReady
              eq_refl Hname Hfresh) as (Hsaved & Hdescriptors & _ & _).
  split; [exact Hsaved|]. rewrite Hdescriptors. reflexivity.
Defined.

Lemma step_descriptors (st : State) (op : Op) :
  exists more,
    faceDescriptors (step st op) = faceDescriptors st ++ more /\
    (length (savedFaces (step st op))
     <= length (savedFaces st) + length more)%nat.
Proof.
  destruct op as [granted videoMounted| |env|name|env|id]; simpl.
  - exists []. rewrite app_nil_r. unfold startWebcam.
    destruct granted; [destruct videoMounted|]; simpl; split;
      try reflexivity; lia.
  - exists []. rewrite app_nil_r. simpl. split; [reflexivity|lia].
  - exists []. rewrite app_nil_r. unfold detectFaces.
    destruct (negb (mounted env) || negb (isActive st)); simpl; split;
      try reflexivity; lia.
  - exists []. rewrite app_nil_r. simpl. split; [reflexivity|lia].
  - unfold saveFace.
    destruct (negb (faceDetected st) || (trim (faceName st) =? "")%string).
    + exists []. rewrite app_nil_r. split; [reflexivity|lia].
    + exists [randomDescriptor env]. cbn [faceDescriptors savedFaces].
      split; [reflexivity|]. rewrite length_app. simpl. lia.
  - exists []. rewrite app_nil_r. unfold removeFace.
    cbn [faceDescriptors savedFaces]. split; [reflexivity|].
    pose proof (filter_length_le (fun face => negb (hasId id face))
                  (savedFaces st)). lia.
Qed.

(** X20: no event of the simulated component shortens [faceDescriptors]:
    after any sequence of starts, stops, detection passes, typing,
    enrolments and removals, the descriptors recorded before are still
    there, in front of the new ones, and the list of saved faces has grown
    by no more entries than there are new descriptors.  From the initial
    state, there are at least as many descriptors as saved faces. *)
Theorem simulated_descriptors_only_grow :
  forall ops st,
    (exists more,
       faceDescriptors (run ops st) = faceDescriptors st ++ more /\
       (length (savedFaces (run ops st))
        <= length (savedFaces st) + length more)%nat)
    /\ (length (savedFaces (run ops initial))
        <= length (faceDescriptors (run ops initial)))%nat.
Proof.
  assert (Hgrow : forall ops st,
    exists more,
      faceDescriptors (run ops st) = faceDescriptors st ++ more /\
      (length (savedFaces (run ops st))
       <= length (savedFaces st) + length more)%nat).
  { unfold run. induction ops as [|op ops IH]; intros st.
    - exists []. rewrite app_nil_r. simpl. split; [reflexivity|lia].
    - simpl fold_left.
      destruct (step_descriptors st op) as (more1 & Hd1 & Hs1).
      destruct (IH (step st op)) as (more2 & Hd2 & Hs2).
      exists (more1 ++ more2). rewrite Hd2, Hd1, <- app_assoc.
      split; [reflexivity|]. rewrite length_app. lia. }
  intros ops st. split; [apply Hgrow|].
  destruct (Hgrow ops initial) as (more & Hd & Hs).
  rewrite Hd. simpl in *. lia.
Qed.

(** X21: a detection pass of the simulated component that runs reports a
    match only together with a detected face, and the match is then one of
    the saved faces, whatever [Math.random] returns. *)
Theorem simulated_detectFaces_match_is_saved :
  forall env st,
    mounted env = true ->
    isActive st = true ->
    savedFaces (detectFaces env st) = savedFaces st
    /\ forall m,
         matchedFace (detectFaces env st) = Some m ->
         faceDetected (detectFaces env st) = true /\ In m (savedFaces st).
Proof.
  intros env st Hmounted Hactive. unfold detectFaces.
  rewrite Hmounted, Hactive. cbn [negb orb]. cbv zeta.
  cbn [savedFaces matchedFace faceDetected].
  split; [reflexivity|]. intros m Hm.
  destruct (JS.gtb (firstDraw env) JS.c0_3); [|discriminate Hm].
  split; [reflexivity|]. cbn [andb] in Hm.
  destruct (0 <? length (savedFaces st))%nat; [|discriminate Hm].
  destruct (JS.gtb (secondDraw env) c0_7); [|discriminate Hm].
  unfold element in Hm.
  destruct (JS.floorZ _) as [z|]; [|discriminate Hm].
  destruct (z <? 0)%Z; [discriminate Hm|].
  eapply nth_error_In, Hm.
Qed.

Lemma simulated_detectFaces_match_is_saved_witness :
  matchedFace
    (detectFaces luckyPass
       (saveFace carlEnrolment carlReady))
  = nth_error (savedFaces (saveFace carlEnrolment carlReady)) 0 /\
  faceDetected (detectFaces luckyPass (saveFace carlEnrolment carlReady))
  = true.
Proof.
  assert (Hmatch :
    matchedFace (detectFaces luckyPass (saveFace carlEnrolment carlReady))
    = nth_error (savedFaces (saveFace carlEnrolment carlReady)) 0)
    by (vm_compute; reflexivity).
  split; [exact Hmatch|].
  destruct (simulated_detectFaces_match_is_saved luckyPass
              (saveFace carlEnrolment carlReady) eq_refl eq_refl)
    as [_ Hsaved].
  destruct (nth_error (savedFaces (saveFace carlEnrolment carlReady)) 0)
    as [m|] eqn:Hfirst; [|discriminate Hfirst].
  exact (proj1 (Hsaved m Hmatch)).
Defined.

End SimulatedExtras.
